(** * Certificate serial numbers: generation, validation, verification

    A shallow embedding of [backend/utils/certificate_generator.py] and of
    the part of [backend/models/certificate_models.py] it reads, together
    with the Python library behaviour the three functions rely on
    ([str] as a sequence of code points, [str.upper], [str.split],
    integer formatting, UTF-8 encoding, [re.match] on the one pattern used,
    and [hashlib.sha256]). *)

From Stdlib Require Import String Ascii ZArith List Bool Lia.
Import ListNotations.
Open Scope Z_scope.

(** ** Python strings *)

(** A Python [str] is a sequence of Unicode code points. *)
Definition codepoint := Z.
Definition str := list codepoint.

(** An ASCII literal of the source, as a [str]. *)
Definition lit (s : string) : str :=
  map (fun a => Z.of_N (N_of_ascii a)) (list_ascii_of_string s).

Fixpoint str_eqb (s t : str) : bool :=
  match s, t with
  | [], [] => true
  | c :: s', d :: t' => (c =? d) && str_eqb s' t'
  | _, _ => false
  end.

(** [s.split(sep)] for a one-character separator: one more part than there
    are separators, empty parts kept. *)
Fixpoint split (sep : codepoint) (s : str) : list str :=
  match s with
  | [] => [[]]
  | c :: s' =>
      if c =? sep then [] :: split sep s'
      else match split sep s' with
           | p :: ps => (c :: p) :: ps
           | [] => [[c]]
           end
  end.

(** *** Integers to text *)

Definition digit_char (d : Z) : codepoint := 48 + d.

(** Decimal digits of a non-negative integer, most significant first. *)
Fixpoint digits_aux (fuel : nat) (n : Z) (acc : str) : str :=
  match fuel with
  | O => acc
  | S f =>
      if n <? 10 then digit_char n :: acc
      else digits_aux f (n / 10) (digit_char (n mod 10) :: acc)
  end.

Definition digits (n : Z) : str := digits_aux (S (Z.to_nat (Z.log2 n))) n [].

(** [str(n)], which is what [f"{n}"] gives for an [int]. *)
Definition format_int (n : Z) : str :=
  if n <? 0 then 45 :: digits (- n) else digits n.

(** [f"{n:04d}"]: sign first, then zeros up to a total width of 4. *)
Definition format_04d (n : Z) : str :=
  let sign := if n <? 0 then [45] else [] in
  let body := digits (Z.abs n) in
  sign ++ repeat 48 (4 - length sign - length body) ++ body.

(** *** Unicode data

    The tables of CPython 3.11 (Unicode 14.0): the decimal digits
    ([Py_UNICODE_ISDECIMAL], category Nd) as inclusive ranges, and the
    uppercase mapping of [str.upper] outside ASCII, as runs
    [(lo, hi, step, delta)] of code points whose uppercase is one code point
    [delta] away, and the code points whose uppercase is several. *)

Definition decimal_ranges : list (Z * Z) :=
  [
    (48, 57); (1632, 1641); (1776, 1785); (1984, 1993); (2406, 2415);
    (2534, 2543); (2662, 2671); (2790, 2799); (2918, 2927); (3046, 3055);
    (3174, 3183); (3302, 3311); (3430, 3439); (3558, 3567); (3664, 3673);
    (3792, 3801); (3872, 3881); (4160, 4169); (4240, 4249); (6112, 6121);
    (6160, 6169); (6470, 6479); (6608, 6617); (6784, 6793); (6800, 6809);
    (6992, 7001); (7088, 7097); (7232, 7241); (7248, 7257); (42528, 42537);
    (43216, 43225); (43264, 43273); (43472, 43481); (43504, 43513);
    (43600, 43609); (44016, 44025); (65296, 65305); (66720, 66729);
    (68912, 68921); (69734, 69743); (69872, 69881); (69942, 69951);
    (70096, 70105); (70384, 70393); (70736, 70745); (70864, 70873);
    (71248, 71257); (71360, 71369); (71472, 71481); (71904, 71913);
    (72016, 72025); (72784, 72793); (73040, 73049); (73120, 73129);
    (92768, 92777); (92864, 92873); (93008, 93017); (120782, 120831);
    (123200, 123209); (123632, 123641); (125264, 125273); (130032, 130041) ].

Definition upper_runs : list (Z * Z * Z * Z) :=
  [
    (181, 181, 1, 743); (224, 246, 1, -32); (248, 254, 1, -32);
    (255, 255, 1, 121); (257, 303, 2, -1); (305, 305, 1, -232);
    (307, 311, 2, -1); (314, 328, 2, -1); (331, 375, 2, -1);
    (378, 382, 2, -1); (383, 383, 1, -300); (384, 384, 1, 195);
    (387, 389, 2, -1); (392, 392, 1, -1); (396, 396, 1, -1);
    (402, 402, 1, -1); (405, 405, 1, 97); (409, 409, 1, -1);
    (410, 410, 1, 163); (414, 414, 1, 130); (417, 421, 2, -1);
    (424, 424, 1, -1); (429, 429, 1, -1); (432, 432, 1, -1);
    (436, 438, 2, -1); (441, 441, 1, -1); (445, 445, 1, -1);
    (447, 447, 1, 56); (453, 453, 1, -1); (454, 454, 1, -2);
    (456, 456, 1, -1); (457, 457, 1, -2); (459, 459, 1, -1);
    (460, 460, 1, -2); (462, 476, 2, -1); (477, 477, 1, -79);
    (479, 495, 2, -1); (498, 498, 1, -1); (499, 499, 1, -2);
    (501, 501, 1, -1); (505, 543, 2, -1); (547, 563, 2, -1);
    (572, 572, 1, -1); (575, 576, 1, 10815); (578, 578, 1, -1);
    (583, 591, 2, -1); (592, 592, 1, 10783); (593, 593, 1, 10780);
    (594, 594, 1, 10782); (595, 595, 1, -210); (596, 596, 1, -206);
    (598, 599, 1, -205); (601, 601, 1, -202); (603, 603, 1, -203);
    (604, 604, 1, 42319); (608, 608, 1, -205); (609, 609, 1, 42315);
    (611, 611, 1, -207); (613, 613, 1, 42280); (614, 614, 1, 42308);
    (616, 616, 1, -209); (617, 617, 1, -211); (618, 618, 1, 42308);
    (619, 619, 1, 10743); (620, 620, 1, 42305); (623, 623, 1, -211);
    (625, 625, 1, 10749); (626, 626, 1, -213); (629, 629, 1, -214);
    (637, 637, 1, 10727); (640, 640, 1, -218); (642, 642, 1, 42307);
    (643, 643, 1, -218); (647, 647, 1, 42282); (648, 648, 1, -218);
    (649, 649, 1, -69); (650, 651, 1, -217); (652, 652, 1, -71);
    (658, 658, 1, -219); (669, 669, 1, 42261); (670, 670, 1, 42258);
    (837, 837, 1, 84); (881, 883, 2, -1); (887, 887, 1, -1);
    (891, 893, 1, 130); (940, 940, 1, -38); (941, 943, 1, -37);
    (945, 961, 1, -32); (962, 962, 1, -31); (963, 971, 1, -32);
    (972, 972, 1, -64); (973, 974, 1, -63); (976, 976, 1, -62);
    (977, 977, 1, -57); (981, 981, 1, -47); (982, 982, 1, -54);
    (983, 983, 1, -8); (985, 1007, 2, -1); (1008, 1008, 1, -86);
    (1009, 1009, 1, -80); (1010, 1010, 1, 7); (1011, 1011, 1, -116);
    (1013, 1013, 1, -96); (1016, 1016, 1, -1); (1019, 1019, 1, -1);
    (1072, 1103, 1, -32); (1104, 1119, 1, -80); (1121, 1153, 2, -1);
    (1163, 1215, 2, -1); (1218, 1230, 2, -1); (1231, 1231, 1, -15);
    (1233, 1327, 2, -1); (1377, 1414, 1, -48); (4304, 4346, 1, 3008);
    (4349, 4351, 1, 3008); (5112, 5117, 1, -8); (7296, 7296, 1, -6254);
    (7297, 7297, 1, -6253); (7298, 7298, 1, -6244); (7299, 7300, 1, -6242);
    (7301, 7301, 1, -6243); (7302, 7302, 1, -6236); (7303, 7303, 1, -6181);
    (7304, 7304, 1, 35266); (7545, 7545, 1, 35332); (7549, 7549, 1, 3814);
    (7566, 7566, 1, 35384); (7681, 7829, 2, -1); (7835, 7835, 1, -59);
    (7841, 7935, 2, -1); (7936, 7943, 1, 8); (7952, 7957, 1, 8);
    (7968, 7975, 1, 8); (7984, 7991, 1, 8); (8000, 8005, 1, 8);
    (8017, 8023, 2, 8); (8032, 8039, 1, 8); (8048, 8049, 1, 74);
    (8050, 8053, 1, 86); (8054, 8055, 1, 100); (8056, 8057, 1, 128);
    (8058, 8059, 1, 112); (8060, 8061, 1, 126); (8112, 8113, 1, 8);
    (8126, 8126, 1, -7205); (8144, 8145, 1, 8); (8160, 8161, 1, 8);
    (8165, 8165, 1, 7); (8526, 8526, 1, -28); (8560, 8575, 1, -16);
    (8580, 8580, 1, -1); (9424, 9449, 1, -26); (11312, 11359, 1, -48);
    (11361, 11361, 1, -1); (11365, 11365, 1, -10795);
    (11366, 11366, 1, -10792); (11368, 11372, 2, -1); (11379, 11379, 1, -1);
    (11382, 11382, 1, -1); (11393, 11491, 2, -1); (11500, 11502, 2, -1);
    (11507, 11507, 1, -1); (11520, 11557, 1, -7264);
    (11559, 11559, 1, -7264); (11565, 11565, 1, -7264);
    (42561, 42605, 2, -1); (42625, 42651, 2, -1); (42787, 42799, 2, -1);
    (42803, 42863, 2, -1); (42874, 42876, 2, -1); (42879, 42887, 2, -1);
    (42892, 42892, 1, -1); (42897, 42899, 2, -1); (42900, 42900, 1, 48);
    (42903, 42921, 2, -1); (42933, 42947, 2, -1); (42952, 42954, 2, -1);
    (42961, 42961, 1, -1); (42967, 42969, 2, -1); (42998, 42998, 1, -1);
    (43859, 43859, 1, -928); (43888, 43967, 1, -38864);
    (65345, 65370, 1, -32); (66600, 66639, 1, -40); (66776, 66811, 1, -40);
    (66967, 66977, 1, -39); (66979, 66993, 1, -39); (66995, 67001, 1, -39);
    (67003, 67004, 1, -39); (68800, 68850, 1, -64); (71872, 71903, 1, -32);
    (93792, 93823, 1, -32); (125218, 125251, 1, -34) ].

Definition upper_special : list (Z * str) :=
  [
    (223, [83; 83]); (329, [700; 78]); (496, [74; 780]);
    (912, [921; 776; 769]); (944, [933; 776; 769]); (1415, [1333; 1362]);
    (7830, [72; 817]); (7831, [84; 776]); (7832, [87; 778]);
    (7833, [89; 778]); (7834, [65; 702]); (8016, [933; 787]);
    (8018, [933; 787; 768]); (8020, [933; 787; 769]);
    (8022, [933; 787; 834]); (8064, [7944; 921]); (8065, [7945; 921]);
    (8066, [7946; 921]); (8067, [7947; 921]); (8068, [7948; 921]);
    (8069, [7949; 921]); (8070, [7950; 921]); (8071, [7951; 921]);
    (8072, [7944; 921]); (8073, [7945; 921]); (8074, [7946; 921]);
    (8075, [7947; 921]); (8076, [7948; 921]); (8077, [7949; 921]);
    (8078, [7950; 921]); (8079, [7951; 921]); (8080, [7976; 921]);
    (8081, [7977; 921]); (8082, [7978; 921]); (8083, [7979; 921]);
    (8084, [7980; 921]); (8085, [7981; 921]); (8086, [7982; 921]);
    (8087, [7983; 921]); (8088, [7976; 921]); (8089, [7977; 921]);
    (8090, [7978; 921]); (8091, [7979; 921]); (8092, [7980; 921]);
    (8093, [7981; 921]); (8094, [7982; 921]); (8095, [7983; 921]);
    (8096, [8040; 921]); (8097, [8041; 921]); (8098, [8042; 921]);
    (8099, [8043; 921]); (8100, [8044; 921]); (8101, [8045; 921]);
    (8102, [8046; 921]); (8103, [8047; 921]); (8104, [8040; 921]);
    (8105, [8041; 921]); (8106, [8042; 921]); (8107, [8043; 921]);
    (8108, [8044; 921]); (8109, [8045; 921]); (8110, [8046; 921]);
    (8111, [8047; 921]); (8114, [8122; 921]); (8115, [913; 921]);
    (8116, [902; 921]); (8118, [913; 834]); (8119, [913; 834; 921]);
    (8124, [913; 921]); (8130, [8138; 921]); (8131, [919; 921]);
    (8132, [905; 921]); (8134, [919; 834]); (8135, [919; 834; 921]);
    (8140, [919; 921]); (8146, [921; 776; 768]); (8147, [921; 776; 769]);
    (8150, [921; 834]); (8151, [921; 776; 834]); (8162, [933; 776; 768]);
    (8163, [933; 776; 769]); (8164, [929; 787]); (8166, [933; 834]);
    (8167, [933; 776; 834]); (8178, [8186; 921]); (8179, [937; 921]);
    (8180, [911; 921]); (8182, [937; 834]); (8183, [937; 834; 921]);
    (8188, [937; 921]); (64256, [70; 70]); (64257, [70; 73]);
    (64258, [70; 76]); (64259, [70; 70; 73]); (64260, [70; 70; 76]);
    (64261, [83; 84]); (64262, [83; 84]); (64275, [1348; 1350]);
    (64276, [1348; 1333]); (64277, [1348; 1339]); (64278, [1358; 1350]);
    (64279, [1348; 1341]) ].

Definition in_range (c lo hi : Z) : bool := (lo <=? c) && (c <=? hi).

Definition isdecimal (c : codepoint) : bool :=
  existsb (fun r => in_range c (fst r) (snd r)) decimal_ranges.

Definition in_run (c : codepoint) (r : Z * Z * Z * Z) : bool :=
  let '(lo, hi, step, _) := r in
  in_range c lo hi && ((c - lo) mod step =? 0).

Definition upper_char (c : codepoint) : str :=
  if in_range c 97 122 then [c - 32]
  else if c <? 128 then [c]
  else match find (fun e => fst e =? c) upper_special with
       | Some e => snd e
       | None =>
           match find (in_run c) upper_runs with
           | Some (_, _, _, delta) => [c + delta]
           | None => [c]
           end
       end.

(** [s.upper()] *)
Definition upper (s : str) : str := flat_map upper_char s.

(** *** Exceptions and UTF-8 *)

Inductive exn : Type :=
| ValueError (msg : str)
| UnicodeEncodeError (c : codepoint).

Inductive result (A : Type) : Type :=
| Ok (a : A)
| Raise (e : exn).
Arguments Ok {A} a.
Arguments Raise {A} e.

(** The UTF-8 bytes of one code point; a surrogate has none (and neither has
    a number that is no code point at all). *)
Definition encode_char (c : codepoint) : option (list Z) :=
  if c <? 0 then None
  else if c <? 0x80 then Some [c]
  else if c <? 0x800 then Some [0xC0 + c / 64; 0x80 + c mod 64]
  else if c <? 0x10000 then
    if in_range c 0xD800 0xDFFF then None
    else Some [0xE0 + c / 4096; 0x80 + (c / 64) mod 64; 0x80 + c mod 64]
  else if c <? 0x110000 then
    Some [0xF0 + c / 262144; 0x80 + (c / 4096) mod 64;
          0x80 + (c / 64) mod 64; 0x80 + c mod 64]
  else None.

(** [s.encode()] *)
Fixpoint encode (s : str) : result (list Z) :=
  match s with
  | [] => Ok []
  | c :: s' =>
      match encode_char c with
      | None => Raise (UnicodeEncodeError c)
      | Some bs =>
          match encode s' with
          | Ok rest => Ok (bs ++ rest)
          | Raise e => Raise e
          end
      end
  end.

(** ** Regular expressions ([re.match]), for patterns that are a sequence of
    character classes with exact repetition counts, closed by [$] *)

Module Re.

Inductive cclass : Type :=
| Digit                                         (* \d *)
| Lit (c : codepoint)                           (* one literal character *)
| Bracket (rs : list (codepoint * codepoint)).  (* [a-bc-d] *)

Definition cmatch (k : cclass) (c : codepoint) : bool :=
  match k with
  | Digit => isdecimal c
  | Lit d => c =? d
  | Bracket rs => existsb (fun r => in_range c (fst r) (snd r)) rs
  end.

(** [k{n}]: exactly [n] characters of the class; what is left of the input. *)
Fixpoint match_rep (k : cclass) (n : nat) (s : str) : option str :=
  match n with
  | O => Some s
  | S n' =>
      match s with
      | c :: s' => if cmatch k c then match_rep k n' s' else None
      | [] => None
      end
  end.

Fixpoint match_seq (p : list (cclass * nat)) (s : str) : option str :=
  match p with
  | [] => Some s
  | (k, n) :: p' =>
      match match_rep k n s with
      | Some rest => match_seq p' rest
      | None => None
      end
  end.

(** [$] without [re.MULTILINE]: the end of the string, or just before a
    newline that ends the string. *)
Definition at_dollar (rest : str) : bool :=
  match rest with
  | [] => true
  | [c] => c =? 10
  | _ => false
  end.

(** [bool(re.match(p + "$", s))]; the match starts at the first character,
    so a leading [^] adds nothing. *)
Definition matches (p : list (cclass * nat)) (s : str) : bool :=
  match match_seq p s with
  | Some rest => at_dollar rest
  | None => false
  end.

End Re.

(** ** SHA-256 ([hashlib.sha256]) over a list of bytes *)

Module Sha256.

Definition add32 (x y : Z) : Z := (x + y) mod 2 ^ 32.
Definition rotr (n x : Z) : Z :=
  (Z.lor (Z.shiftr x n) (Z.shiftl x (32 - n))) mod 2 ^ 32.
Definition shr (n x : Z) : Z := Z.shiftr x n.
Definition not32 (x : Z) : Z := Z.lxor x 0xffffffff.

Definition Ch (x y z : Z) : Z := Z.lxor (Z.land x y) (Z.land (not32 x) z).
Definition Maj (x y z : Z) : Z :=
  Z.lxor (Z.lxor (Z.land x y) (Z.land x z)) (Z.land y z).
Definition Sigma0 (x : Z) : Z := Z.lxor (Z.lxor (rotr 2 x) (rotr 13 x)) (rotr 22 x).
Definition Sigma1 (x : Z) : Z := Z.lxor (Z.lxor (rotr 6 x) (rotr 11 x)) (rotr 25 x).
Definition sigma0 (x : Z) : Z := Z.lxor (Z.lxor (rotr 7 x) (rotr 18 x)) (shr 3 x).
Definition sigma1 (x : Z) : Z := Z.lxor (Z.lxor (rotr 17 x) (rotr 19 x)) (shr 10 x).

(** The first 64 primes. *)
Definition is_prime (n : nat) : bool :=
  forallb (fun d => negb (Nat.modulo n d =? 0)%nat) (seq 2 (n - 2)).

Definition primes : list Z :=
  Eval vm_compute in map Z.of_nat (filter is_prime (seq 2 310)).

(** The integer cube root, by bisection on the bits below [2 ^ bits]. *)
Fixpoint cube_root (bits : nat) (n x : Z) : Z :=
  match bits with
  | O => x
  | S b =>
      let x' := x + 2 ^ Z.of_nat b in
      cube_root b n (if x' * x' * x' <=? n then x' else x)
  end.

(** The round constants: the first 32 bits of the fractional parts of the
    cube roots of the first 64 primes. *)
Definition K : list Z :=
  Eval vm_compute in map (fun p => cube_root 36 (p * 2 ^ 96) 0 mod 2 ^ 32) primes.

Definition state : Type := Z * Z * Z * Z * Z * Z * Z * Z.

(** The first 32 bits of the fractional part of a square root. *)
Definition sqrt_frac (p : Z) : Z := Z.sqrt (p * 2 ^ 64) mod 2 ^ 32.

(** The initial hash value: from the square roots of the first 8 primes. *)
Definition H0 : state :=
  Eval vm_compute in
    (sqrt_frac 2, sqrt_frac 3, sqrt_frac 5, sqrt_frac 7,
     sqrt_frac 11, sqrt_frac 13, sqrt_frac 17, sqrt_frac 19).

(** Big-endian bytes of a length in bits, 8 of them. *)
Definition be64 (n : Z) : list Z :=
  map (fun i => Z.shiftr n (8 * (7 - Z.of_nat i)) mod 256) (seq 0 8).

Definition pad (msg : list Z) : list Z :=
  let len := Z.of_nat (length msg) in
  msg ++ [0x80] ++ repeat 0 (Z.to_nat ((55 - len) mod 64)) ++ be64 (8 * len).

(** The sixteen big-endian words of a 64-byte block. *)
Fixpoint words (n : nat) (bs : list Z) : list Z :=
  match n with
  | O => []
  | S n' =>
      match bs with
      | b0 :: b1 :: b2 :: b3 :: bs' =>
          (((b0 * 256 + b1) * 256 + b2) * 256 + b3) :: words n' bs'
      | _ => []
      end
  end.

(** The message schedule, grown from 16 words by [n] more. *)
Fixpoint extend (n : nat) (w : list Z) : list Z :=
  match n with
  | O => w
  | S n' =>
      let i := length w in
      let x := add32 (add32 (add32 (sigma1 (nth (i - 2) w 0)) (nth (i - 7) w 0))
                            (sigma0 (nth (i - 15) w 0)))
                     (nth (i - 16) w 0) in
      extend n' (w ++ [x])
  end.

Definition round (s : state) (kw : Z * Z) : state :=
  let '(a, b, c, d, e, f, g, h) := s in
  let t1 := add32 (add32 (add32 (add32 h (Sigma1 e)) (Ch e f g)) (fst kw)) (snd kw) in
  let t2 := add32 (Sigma0 a) (Maj a b c) in
  (add32 t1 t2, a, b, c, add32 d t1, e, f, g).

Definition compress (hs : state) (block : list Z) : state :=
  let w := extend 48 (words 16 block) in
  let '(a, b, c, d, e, f, g, h) := fold_left round (combine K w) hs in
  let '(a0, b0, c0, d0, e0, f0, g0, h0) := hs in
  (add32 a0 a, add32 b0 b, add32 c0 c, add32 d0 d,
   add32 e0 e, add32 f0 f, add32 g0 g, add32 h0 h).

Fixpoint process (fuel : nat) (bs : list Z) (hs : state) : state :=
  match fuel with
  | O => hs
  | S f =>
      match bs with
      | [] => hs
      | _ => process f (skipn 64 bs) (compress hs (firstn 64 bs))
      end
  end.

Definition hex_char (n : Z) : codepoint := if n <? 10 then 48 + n else 87 + n.

(** The eight lowercase hexadecimal digits of a 32-bit word. *)
Definition hex32 (w : Z) : str :=
  map (fun i => hex_char (Z.shiftr w (4 * (7 - Z.of_nat i)) mod 16)) (seq 0 8).

(** [hashlib.sha256(msg).hexdigest()] *)
Definition hexdigest (msg : list Z) : str :=
  let bs := pad msg in
  let '(a, b, c, d, e, f, g, h) := process (length bs) bs H0 in
  hex32 a ++ hex32 b ++ hex32 c ++ hex32 d ++
  hex32 e ++ hex32 f ++ hex32 g ++ hex32 h.

End Sha256.

(** ** The store ([models/certificate_models.py])

    The columns the generator and the verifier read, and the columns
    derived from the serial that the properties below speak of.
    A nullable column is an [option]. *)

Module Course.
Record t : Type := mk {
  id : Z;
  course_code : str;   (* String(2), unique, not null *)
  course_name : str
}.
End Course.

Module Certificate.
Record t : Type := mk {
  id : Z;
  student_id : Z;
  course_id : Z;
  serial_number : str;        (* unique, not null *)
  sequential_part : Z;
  hash_part : str;
  issue_date : option (Z * Z * Z);
  issue_year : Z;
  status : option str         (* default 'active' *)
}.
End Certificate.

Record Store : Type := {
  courses : list Course.t;
  certificates : list Certificate.t
}.

(** [db.query(Course).filter(Course.id == course_id).first()] *)
Definition get_course (db : Store) (course_id : Z) : option Course.t :=
  find (fun c => Course.id c =? course_id) (courses db).

(** The step of the aggregate [max] over the rows of the table: a row of
    the course and the year raises the maximum, any other row is skipped. *)
Definition max_step (course_id year : Z) (acc : option Z) (c : Certificate.t)
  : option Z :=
  if (Certificate.course_id c =? course_id) && (Certificate.issue_year c =? year)
  then match acc with
       | None => Some (Certificate.sequential_part c)
       | Some m => Some (Z.max m (Certificate.sequential_part c))
       end
  else acc.

(** [db.query(func.max(Certificate.sequential_part)).filter(and_(
    Certificate.course_id == course_id, Certificate.issue_year == year))
    .scalar()]: [None] when no row is selected. *)
Definition max_sequential (db : Store) (course_id year : Z) : option Z :=
  fold_left (max_step course_id year) (certificates db) None.

(** [db.query(Certificate).filter(Certificate.serial_number == serial_number)
    .first()], the comparison being an exact match of the two strings. *)
Definition get_certificate_by_serial (db : Store) (serial_number : str)
  : option Certificate.t :=
  find (fun c => str_eqb (Certificate.serial_number c) serial_number)
       (certificates db).

(** ** Effects: reads of the session, digests, exceptions

    A computation reads the store, records in order the queries it sends and
    the digests it computes, and returns a value or raises. *)

Inductive event : Type :=
| SelectCourse (course_id : Z)
| SelectMaxSequential (course_id year : Z)
| SelectCertificate (serial_number : str)
| Sha256Digest (input : list Z).

Definition M (A : Type) : Type := Store -> list event * result A.

Definition ret {A : Type} (a : A) : M A := fun _ => ([], Ok a).

Definition raise {A : Type} (e : exn) : M A := fun _ => ([], Raise e).

Definition bind {A B : Type} (m : M A) (k : A -> M B) : M B :=
  fun db =>
    match m db with
    | (t, Ok a) => let (t', r) := k a db in (t ++ t', r)
    | (t, Raise e) => (t, Raise e)
    end.

Notation "x <- m ;; k" := (bind m (fun x => k))
  (at level 61, m at next level, right associativity).

Definition lift {A : Type} (r : result A) : M A := fun _ => ([], r).

Definition query_course (course_id : Z) : M (option Course.t) :=
  fun db => ([SelectCourse course_id], Ok (get_course db course_id)).

Definition query_max_sequential (course_id year : Z) : M (option Z) :=
  fun db => ([SelectMaxSequential course_id year],
             Ok (max_sequential db course_id year)).

Definition query_certificate (serial_number : str) : M (option Certificate.t) :=
  fun db => ([SelectCertificate serial_number],
             Ok (get_certificate_by_serial db serial_number)).

(** [hashlib.sha256(data).hexdigest()] *)
Definition sha256_hexdigest (data : list Z) : M str :=
  fun _ => ([Sha256Digest data], Ok (Sha256.hexdigest data)).

(** ** [utils/certificate_generator.py] *)

(** [x or 0] on the result of [scalar()]: [None] and [0] are both falsy. *)
Definition or_zero (x : option Z) : Z :=
  match x with
  | Some v => if v =? 0 then 0 else v
  | None => 0
  end.

(** [current_year] stands for [datetime.now().year]. *)
Definition generate_serial_number (current_year : Z) (student_id course_id : Z)
  : M (str * Z * str) :=
  course <- query_course course_id ;;
  match course with
  | None =>
      raise (ValueError (lit "Course with ID " ++ format_int course_id
                         ++ lit " not found"))
  | Some course =>
      let course_code := upper (Course.course_code course) in
      max_sequential <- query_max_sequential course_id current_year ;;
      let next_sequential := or_zero max_sequential + 1 in
      let sequential_str := format_04d next_sequential in
      let hash_input := format_int student_id ++ lit "-" ++ format_int course_id
                        ++ lit "-" ++ format_int current_year ++ lit "-"
                        ++ sequential_str in
      data <- lift (encode hash_input) ;;
      hash_hex <- sha256_hexdigest data ;;
      let verification_hash := upper (firstn 6 hash_hex) in
      let serial_number := format_int current_year ++ lit "-" ++ course_code
                           ++ lit "-" ++ sequential_str ++ lit "-"
                           ++ verification_hash in
      ret (serial_number, next_sequential, verification_hash)
  end.

(** [r'^\d{4}-[A-Z]{2}-\d{4}-[A-F0-9]{6}$'] *)
Definition pattern : list (Re.cclass * nat) :=
  [ (Re.Digit, 4%nat); (Re.Lit 45, 1%nat);
    (Re.Bracket [(65, 90)], 2%nat); (Re.Lit 45, 1%nat);
    (Re.Digit, 4%nat); (Re.Lit 45, 1%nat);
    (Re.Bracket [(65, 70); (48, 57)], 6%nat) ].

Definition validate_serial_number (serial_number : str) : bool :=
  Re.matches pattern serial_number.

Record VerificationResult : Type := {
  is_valid : bool;
  reason : str;
  certificate : option Certificate.t
}.

(** [f'{status}'] for a nullable string column *)
Definition format_status (st : option str) : str :=
  match st with
  | Some s => s
  | None => lit "None"
  end.

(** [status != 'active'] *)
Definition status_is_active (st : option str) : bool :=
  match st with
  | Some s => str_eqb s (lit "active")
  | None => false
  end.

(** The message of the [ValueError] that unpacking [n] values into four
    names raises. *)
Definition unpack_error (n : nat) : exn :=
  if (n <? 4)%nat
  then ValueError (lit "not enough values to unpack (expected 4, got "
                   ++ format_int (Z.of_nat n) ++ lit ")")
  else ValueError (lit "too many values to unpack (expected 4)").

Definition verify_certificate_authenticity (serial_number : str)
  : M VerificationResult :=
  if negb (validate_serial_number serial_number) then
    ret {| is_valid := false;
           reason := lit "Invalid serial number format";
           certificate := None |}
  else
    found <- query_certificate serial_number ;;
    match found with
    | None =>
        ret {| is_valid := false;
               reason := lit "Certificate not found in database";
               certificate := None |}
    | Some cert =>
        if negb (status_is_active (Certificate.status cert)) then
          ret {| is_valid := false;
                 reason := lit "Certificate status is "
                           ++ format_status (Certificate.status cert);
                 certificate := Some cert |}
        else
          let parts := split 45 serial_number in
          match parts with
          | [year; course_code; sequential; provided_hash] =>
              let hash_input :=
                format_int (Certificate.student_id cert) ++ lit "-"
                ++ format_int (Certificate.course_id cert) ++ lit "-"
                ++ year ++ lit "-" ++ sequential in
              data <- lift (encode hash_input) ;;
              hash_hex <- sha256_hexdigest data ;;
              let expected_hash := upper (firstn 6 hash_hex) in
              if negb (str_eqb provided_hash expected_hash) then
                ret {| is_valid := false;
                       reason := lit "Hash verification failed - certificate may be forged";
                       certificate := Some cert |}
              else
                ret {| is_valid := true;
                       reason := lit "Certificate is authentic and valid";
                       certificate := Some cert |}
          | _ => raise (unpack_error (length parts))
          end
    end.

(** ** Issuance, as the caller of the generator does it *)

(** Modelled from the spec: the insert of a certificate row, which is the
    caller's part and not in the repository's two files.  The column
    [serial_number] is declared [unique], so a row whose serial is already
    stored is refused. *)
Definition insert_certificate (db : Store) (c : Certificate.t) : option Store :=
  if existsb (fun c' => str_eqb (Certificate.serial_number c')
                                (Certificate.serial_number c))
             (certificates db)
  then None
  else Some {| courses := courses db;
               certificates := certificates db ++ [c] |}.

(** Modelled from the spec: the row the caller persists: the three values
    the generator returned, the two ids, [issue_year = year], and the
    column default ['active'] for the status. *)
Definition new_certificate (db : Store) (year student_id course_id : Z)
  (g : str * Z * str) : Certificate.t :=
  let '(serial, sequence, checksum) := g in
  {| Certificate.id := Z.of_nat (length (certificates db)) + 1;
     Certificate.student_id := student_id;
     Certificate.course_id := course_id;
     Certificate.serial_number := serial;
     Certificate.sequential_part := sequence;
     Certificate.hash_part := checksum;
     Certificate.issue_date := None;
     Certificate.issue_year := year;
     Certificate.status := Some (lit "active") |}.

(** Modelled from the spec: one issuance, generation followed by the insert;
    [None] when either fails. *)
Definition issue (year course_id : Z) (db : Store) (student_id : Z)
  : option (Store * Z) :=
  match snd (generate_serial_number year student_id course_id db) with
  | Ok g =>
      match insert_certificate db (new_certificate db year student_id course_id g) with
      | Some db' => Some (db', snd (fst g))
      | None => None
      end
  | Raise _ => None
  end.

(** Modelled from the spec: issuances one after the other, for the students
    of a list; the sequence numbers allocated, in order. *)
Fixpoint issue_all (year course_id : Z) (db : Store) (students : list Z)
  : option (Store * list Z) :=
  match students with
  | [] => Some (db, [])
  | s :: rest =>
      match issue year course_id db s with
      | Some (db', n) =>
          match issue_all year course_id db' rest with
          | Some (db'', ns) => Some (db'', n :: ns)
          | None => None
          end
      | None => None
      end
  end.

(** ** Statistics ([get_certificate_stats_by_year])

    The three queries read the store and nothing else.  SQL leaves the
    order of the rows of a grouped query open; here a group stands where
    its first row stands. *)

(** One more row for the group of key [k]: its count goes up by one, or the
    group is opened with count 1. *)
Fixpoint bump {K : Type} (eqb : K -> K -> bool) (k : K) (acc : list (K * Z))
  : list (K * Z) :=
  match acc with
  | [] => [(k, 1)]
  | (k', n) :: rest =>
      if eqb k' k then (k', n + 1) :: rest else (k', n) :: bump eqb k rest
  end.

(** [GROUP BY key] with [count(...)] of a column that is never null: the
    keys that occur, each with the number of rows that carry it. *)
Definition group_count {K : Type} (eqb : K -> K -> bool) (keys : list K)
  : list (K * Z) :=
  fold_left (fun acc k => bump eqb k acc) keys [].

(** [Certificate.issue_year == year] *)
Definition issued_in (year : Z) (c : Certificate.t) : bool :=
  Certificate.issue_year c =? year.

(** [Course JOIN Certificate ON Course.id == Certificate.course_id], with
    the filter on the year: the pairs of a course and a certificate of it. *)
Definition join_courses (db : Store) (year : Z)
  : list (Course.t * Certificate.t) :=
  flat_map
    (fun co =>
       map (fun ce => (co, ce))
           (filter (fun ce => (Course.id co =? Certificate.course_id ce)
                              && issued_in year ce)
                   (certificates db)))
    (courses db).

(** The key of [group_by(Course.id, Course.course_code, Course.course_name)] *)
Definition course_key (co : Course.t) : Z * str * str :=
  (Course.id co, Course.course_code co, Course.course_name co).

Definition course_key_eqb (a b : Z * str * str) : bool :=
  let '(i, c, n) := a in
  let '(j, d, m) := b in
  (i =? j) && str_eqb c d && str_eqb n m.

(** Equality of two values of the nullable column [status]; [GROUP BY]
    puts the nulls into one group. *)
Definition status_eqb (a b : option str) : bool :=
  match a, b with
  | Some s, Some t => str_eqb s t
  | None, None => true
  | _, _ => false
  end.

Module CourseStat.
Record t : Type := mk {
  course_code : str;
  course_name : str;
  count : Z
}.
End CourseStat.

Module StatusStat.
Record t : Type := mk {
  status : option str;
  count : Z
}.
End StatusStat.

Module Stats.
Record t : Type := mk {
  year : Z;
  total_certificates : Z;
  by_course : list CourseStat.t;
  by_status : list StatusStat.t
}.
End Stats.

(** [db.query(Certificate).filter(Certificate.issue_year == year).count()] *)
Definition count_certificates (db : Store) (year : Z) : Z :=
  Z.of_nat (length (filter (issued_in year) (certificates db))).

(** The rows [(course_code, course_name, count)] of the second query. *)
Definition group_count_by_course (db : Store) (year : Z) : list (str * str * Z) :=
  map (fun '((_, code, name), n) => (code, name, n))
      (group_count course_key_eqb
         (map (fun p => course_key (fst p)) (join_courses db year))).

(** The rows [(status, count)] of the third query. *)
Definition group_count_by_status (db : Store) (year : Z) : list (option str * Z) :=
  group_count status_eqb
    (map Certificate.status (filter (issued_in year) (certificates db))).

(** [current_year] stands for [datetime.now().year], read when [year] is
    [None]. *)
Definition get_certificate_stats_by_year (current_year : Z) (db : Store)
  (year : option Z) : Stats.t :=
  let year := match year with
              | None => current_year
              | Some y => y
              end in
  let total_certificates := count_certificates db year in
  let course_stats := group_count_by_course db year in
  let status_stats := group_count_by_status db year in
  {| Stats.year := year;
     Stats.total_certificates := total_certificates;
     Stats.by_course :=
       map (fun stat => let '(code, name, n) := stat in
                        CourseStat.mk code name n) course_stats;
     Stats.by_status :=
       map (fun stat => StatusStat.mk (fst stat) (snd stat)) status_stats |}.

(** ** The format and the checksum as the specification words them *)

Definition is_ascii_digit (c : codepoint) : bool := in_range c 48 57.
Definition is_upper_latin (c : codepoint) : bool := in_range c 65 90.
Definition is_upper_hex (c : codepoint) : bool :=
  in_range c 48 57 || in_range c 65 70.

(** [YYYY-CC-NNNN-VVVVVV]: 4 digits, hyphen, 2 uppercase Latin letters,
    hyphen, 4 digits, hyphen, 6 characters of [0-9A-F], and nothing else. *)
Definition well_formed (s : str) : bool :=
  match s with
  | [y1; y2; y3; y4; h1; c1; c2; h2; n1; n2; n3; n4; h3; v1; v2; v3; v4; v5; v6] =>
      forallb is_ascii_digit [y1; y2; y3; y4] && (h1 =? 45)
      && forallb is_upper_latin [c1; c2] && (h2 =? 45)
      && forallb is_ascii_digit [n1; n2; n3; n4] && (h3 =? 45)
      && forallb is_upper_hex [v1; v2; v3; v4; v5; v6]
  | _ => false
  end.

(** The first 6 hexadecimal characters, uppercased, of the SHA-256 digest of
    the UTF-8 bytes of a string. *)
Definition checksum_of (hash_input : str) : result str :=
  match encode hash_input with
  | Ok data => Ok (upper (firstn 6 (Sha256.hexdigest data)))
  | Raise e => Raise e
  end.

(** ["{student_id}-{course_id}-{year}-{padded_sequence}"] *)
Definition spec_hash_input (student_id course_id year : Z) (padded_sequence : str)
  : str :=
  format_int student_id ++ lit "-" ++ format_int course_id ++ lit "-"
  ++ format_int year ++ lit "-" ++ padded_sequence.

Definition spec_checksum (student_id course_id year : Z) (padded_sequence : str)
  : result str :=
  checksum_of (spec_hash_input student_id course_id year padded_sequence).

(** One character of a string replaced, at a 0-based index. *)
Fixpoint replace_at (i : nat) (ch : codepoint) (s : str) : str :=
  match s with
  | [] => []
  | c :: s' =>
      match i with
      | O => ch :: s'
      | S i' => c :: replace_at i' ch s'
      end
  end.

(** ** Predicates used in the statements *)

Definition ascii_digits (s : str) : Prop := Forall (fun c => 48 <= c <= 57) s.

(** The four decimal digits of a number below 10000. *)
Definition four_digits (n : Z) : str :=
  [ digit_char (n / 1000); digit_char (n / 100 mod 10);
    digit_char (n / 10 mod 10); digit_char (n mod 10) ].

Definition ascii (s : str) : Prop := Forall (fun c => 0 <= c < 128) s.

Definition all_of (p : codepoint -> bool) (s : str) : Prop :=
  Forall (fun c => p c = true) s.

Definition is_lower_hex (c : codepoint) : bool :=
  in_range c 48 57 || in_range c 97 102.

(** What every range of the table of decimal digits satisfies: it lies
    within the code points, off the surrogates, and is either the ASCII
    digits or outside ASCII. *)
Definition decimal_range_ok (r : Z * Z) : bool :=
  (48 <=? fst r) && (snd r <=? 130041)
  && ((snd r <? 55296) || (57343 <? fst r))
  && ((snd r <=? 57) || (128 <=? fst r)).

(** A string the validator accepts, cut into its segments: year, course
    code, sequence, checksum, and what [$] leaves unread. *)
Definition accepted_shape (y cc n v tail s : str) : Prop :=
  s = y ++ 45 :: cc ++ 45 :: n ++ 45 :: v ++ tail
  /\ (length y = 4%nat /\ all_of isdecimal y)
  /\ (length cc = 2%nat /\ all_of is_upper_latin cc)
  /\ (length n = 4%nat /\ all_of isdecimal n)
  /\ (length v = 6%nat /\ all_of is_upper_hex v)
  /\ (tail = [] \/ tail = [10]).

(** The five results of the verifier. *)
Definition invalid_format : VerificationResult :=
  {| is_valid := false; reason := lit "Invalid serial number format";
     certificate := None |}.
Definition not_found : VerificationResult :=
  {| is_valid := false; reason := lit "Certificate not found in database";
     certificate := None |}.
Definition bad_status (cert : Certificate.t) : VerificationResult :=
  {| is_valid := false;
     reason := lit "Certificate status is " ++ format_status (Certificate.status cert);
     certificate := Some cert |}.
Definition hash_failed (cert : Certificate.t) : VerificationResult :=
  {| is_valid := false;
     reason := lit "Hash verification failed - certificate may be forged";
     certificate := Some cert |}.
Definition authentic (cert : Certificate.t) : VerificationResult :=
  {| is_valid := true; reason := lit "Certificate is authentic and valid";
     certificate := Some cert |}.

(** The string the verifier digests: the stored ids, and the year and the
    sequence as the serial spells them. *)
Definition verifier_input (cert : Certificate.t) (year sequential : str) : str :=
  format_int (Certificate.student_id cert) ++ lit "-"
  ++ format_int (Certificate.course_id cert) ++ lit "-"
  ++ year ++ lit "-" ++ sequential.

(** A course code of two ASCII letters, of either case. *)
Definition two_letters (code : str) : Prop :=
  length code = 2%nat /\ Forall (fun c => 65 <= c <= 90 \/ 97 <= c <= 122) code.

(** The certificates of one course issued in one year. *)
Definition partition (db : Store) (course_id year : Z) : list Certificate.t :=
  filter (fun c => (Certificate.course_id c =? course_id)
                   && (Certificate.issue_year c =? year))
         (certificates db).

(** The maximum of a partition as a number: 0 when it is empty. *)
Definition partition_max (db : Store) (course_id year : Z) : Z :=
  match max_sequential db course_id year with
  | Some m => m
  | None => 0
  end.

(** The sum of the counts of the rows of a grouped query. *)
Definition sum_counts {K : Type} (rows : list (K * Z)) : Z :=
  fold_right (fun p acc => snd p + acc) 0 rows.

(** The count listed for a key, 0 when the key is not listed. *)
Definition lookup_count {K : Type} (eqb : K -> K -> bool) (k : K)
  (rows : list (K * Z)) : Z :=
  match find (fun p => eqb (fst p) k) rows with
  | Some p => snd p
  | None => 0
  end.

(** How many of the keys are [k]. *)
Definition occurrences {K : Type} (eqb : K -> K -> bool) (k : K) (keys : list K)
  : Z :=
  Z.of_nat (length (filter (fun k' => eqb k' k) keys)).

(** The year the statistics are about. *)
Definition stats_year (current_year : Z) (year : option Z) : Z :=
  match year with
  | None => current_year
  | Some y => y
  end.

(** The certificates of a year, and among them those whose course is in
    the store. *)
Definition certificates_of (db : Store) (year : Z) : list Certificate.t :=
  filter (issued_in year) (certificates db).

Definition has_course (db : Store) (ce : Certificate.t) : bool :=
  existsb (fun co => Course.id co =? Certificate.course_id ce) (courses db).

(** ** Stores for the examples *)

Definition example_course : Course.t :=
  Course.mk 1 (lit "WD") (lit "Web Development").

(** The certificate of the specification's example: student 1, course 1,
    year 2024, first issuance. *)
Definition example_certificate (st : option str) : Certificate.t :=
  {| Certificate.id := 1;
     Certificate.student_id := 1;
     Certificate.course_id := 1;
     Certificate.serial_number := lit "2024-WD-0001-473895";
     Certificate.sequential_part := 1;
     Certificate.hash_part := lit "473895";
     Certificate.issue_date := Some (2024, 3, 1);
     Certificate.issue_year := 2024;
     Certificate.status := st |}.

Definition empty_store : Store :=
  {| courses := [example_course]; certificates := [] |}.

Definition example_store (st : option str) : Store :=
  {| courses := [example_course]; certificates := [example_certificate st] |}.

(** A store whose partition (course 1, year 2024) has reached 9999. *)
Definition overflow_store : Store :=
  {| courses := [example_course];
     certificates :=
       [ {| Certificate.id := 9999;
            Certificate.student_id := 1;
            Certificate.course_id := 1;
            Certificate.serial_number := lit "2024-WD-9999-8FA4C6";
            Certificate.sequential_part := 9999;
            Certificate.hash_part := lit "8FA4C6";
            Certificate.issue_date := Some (2024, 12, 1);
            Certificate.issue_year := 2024;
            Certificate.status := Some (lit "active") |} ] |}.

(** A store whose course has a code of two characters that are not both
    letters. *)
Definition digit_code_store : Store :=
  {| courses := [Course.mk 1 (lit "w1") (lit "Web Development 1")];
     certificates := [] |}.

(** A store for the statistics: two courses, three certificates of 2024,
    one of them revoked, one of a course that is not stored, and one
    certificate of 2023. *)
Definition stats_store : Store :=
  {| courses := [example_course; Course.mk 2 (lit "DS") (lit "Data Science")];
     certificates :=
       [ example_certificate (Some (lit "active"));
         {| Certificate.id := 2;
            Certificate.student_id := 2;
            Certificate.course_id := 1;
            Certificate.serial_number := lit "2024-WD-0002-86DAA1";
            Certificate.sequential_part := 2;
            Certificate.hash_part := lit "86DAA1";
            Certificate.issue_date := Some (2024, 3, 2);
            Certificate.issue_year := 2024;
            Certificate.status := Some (lit "revoked") |};
         {| Certificate.id := 3;
            Certificate.student_id := 3;
            Certificate.course_id := 9;
            Certificate.serial_number := lit "2024-XX-0001-000000";
            Certificate.sequential_part := 1;
            Certificate.hash_part := lit "000000";
            Certificate.issue_date := Some (2024, 5, 1);
            Certificate.issue_year := 2024;
            Certificate.status := Some (lit "active") |};
         {| Certificate.id := 4;
            Certificate.student_id := 1;
            Certificate.course_id := 2;
            Certificate.serial_number := lit "2023-DS-0001-111111";
            Certificate.sequential_part := 1;
            Certificate.hash_part := lit "111111";
            Certificate.issue_date := Some (2023, 5, 1);
            Certificate.issue_year := 2023;
            Certificate.status := None |} ] |}.

(** * Properties *)

(** ** The library functions against known values *)

Example sha256_empty :
  Sha256.hexdigest [] =
  lit "e3b0c44298fc1c149afbf4c8996fb92427ae41e4649b934ca495991b7852b855".
Proof. vm_compute. reflexivity. Qed.

Example sha256_round_constants :
  nth 0 Sha256.K 0 = 0x428a2f98 /\ nth 63 Sha256.K 0 = 0xc67178f2
  /\ length Sha256.K = 64%nat /\ fst Sha256.H0 = (0x6a09e667, 0xbb67ae85,
     0x3c6ef372, 0xa54ff53a, 0x510e527f, 0x9b05688c, 0x1f83d9ab).
Proof. vm_compute. repeat split. Qed.

Example sha256_example_input :
  Sha256.hexdigest (lit "1-1-2024-0001") =
  lit "473895c8a9a4b7e06fbecb7a82fec55f967970b95922f4a59987b480b238c634".
Proof. vm_compute. reflexivity. Qed.

(** Messages of 55, 56 and 64 bytes: one block, and two with the padding
    carried over. *)
Example sha256_block_boundaries :
  Sha256.hexdigest (repeat 97 55) =
  lit "9f4390f8d30c2dd92ec9f095b65e2b9ae9b0a925a5258e241c9f1e910f734318"
  /\ Sha256.hexdigest (repeat 97 56) =
     lit "b35439a4ac6f0948b6d6f9e3c6af0f5f590ce20f1bde7090ef7970686ec6738a"
  /\ Sha256.hexdigest (repeat 97 64) =
     lit "ffe054fe7ae0cb6dc65c3af9b61d5209f439851db43d0ba5997337df154668eb".
Proof. vm_compute. repeat split. Qed.

Example format_examples :
  format_04d 1 = lit "0001" /\ format_04d 12345 = lit "12345"
  /\ format_04d (-1) = lit "-001" /\ format_04d 0 = lit "0000"
  /\ format_int 2024 = lit "2024" /\ format_int (-17) = lit "-17"
  /\ format_int 0 = lit "0".
Proof. vm_compute. repeat split. Qed.

Example encode_examples :
  encode [120792; 8364] = Ok [240; 157; 159; 152; 226; 130; 172]
  /\ encode [1634; 233] = Ok [217; 162; 195; 169]
  /\ encode [55296] = Raise (UnicodeEncodeError 55296).
Proof. vm_compute. repeat split. Qed.

Example upper_examples :
  upper (lit "wd") = lit "WD" /\ upper (lit "a1B2c3") = lit "A1B2C3"
  /\ upper [223] = lit "SS" /\ upper [1076] = [1044].
Proof. vm_compute. repeat split. Qed.

Example split_examples :
  split 45 (lit "2024-WD-0001-A1B2C3")
  = [lit "2024"; lit "WD"; lit "0001"; lit "A1B2C3"]
  /\ split 45 (lit "a--b-") = [lit "a"; []; lit "b"; []]
  /\ split 45 [] = [[]].
Proof. vm_compute. repeat split. Qed.

(** The examples of the specification for the validator. *)
Example validate_examples :
  validate_serial_number (lit "2024-WD-0001-A1B2C3") = true
  /\ validate_serial_number (lit "24-WD-0001-A1B2C3") = false
  /\ validate_serial_number (lit "2024-wd-0001-A1B2C3") = false
  /\ validate_serial_number (lit " 2024-WD-0001-A1B2C3") = false
  /\ validate_serial_number (lit "2024-WD-0001-A1B2C3" ++ [10; 10]) = false.
Proof. vm_compute. repeat split. Qed.

(** ** Strings *)

Lemma str_eqb_eq (s t : str) : str_eqb s t = true <-> s = t.
Proof.
  revert t; induction s as [|c s IH]; intros [|d t]; simpl;
    try (split; [discriminate | discriminate]); try tauto.
  rewrite andb_true_iff, Z.eqb_eq, IH.
  split; [intros [-> ->]; reflexivity | intros E; injection E; auto].
Qed.

Lemma str_eqb_refl (s : str) : str_eqb s s = true.
Proof. apply str_eqb_eq; reflexivity. Qed.

Lemma str_eqb_neq (s t : str) : str_eqb s t = false <-> s <> t.
Proof.
  rewrite <- str_eqb_eq. destruct (str_eqb s t); split; congruence.
Qed.

Lemma split_app (sep : codepoint) (p r : str) :
  ~ In sep p -> split sep (p ++ sep :: r) = p :: split sep r.
Proof.
  induction p as [|c p IH]; simpl; intros Hp.
  - now rewrite Z.eqb_refl.
  - destruct (Z.eqb_spec c sep) as [->|_]; [tauto|].
    rewrite IH by tauto. reflexivity.
Qed.

Lemma split_no_sep (sep : codepoint) (s : str) :
  ~ In sep s -> split sep s = [s].
Proof.
  induction s as [|c s IH]; simpl; intros Hs; [reflexivity|].
  destruct (Z.eqb_spec c sep) as [->|_]; [tauto|].
  rewrite IH by tauto. reflexivity.
Qed.

(** ** Decimal text of integers *)

Lemma digits_aux_lt (f : nat) (n : Z) (acc : str) :
  n < 10 -> digits_aux (S f) n acc = digit_char n :: acc.
Proof. intros H; simpl. now apply Z.ltb_lt in H as ->. Qed.

Lemma digits_aux_ge (f : nat) (n : Z) (acc : str) :
  10 <= n ->
  digits_aux (S f) n acc = digits_aux f (n / 10) (digit_char (n mod 10) :: acc).
Proof. intros H; simpl. now apply Z.ltb_ge in H as ->. Qed.

Lemma digits_aux_ascii (f : nat) : forall n acc,
  0 <= n -> ascii_digits acc -> ascii_digits (digits_aux f n acc).
Proof.
  unfold ascii_digits.
  induction f as [|f IH]; intros n acc Hn Hacc; [exact Hacc|].
  simpl. destruct (Z.ltb_spec n 10).
  - constructor; [unfold digit_char; lia | exact Hacc].
  - apply IH.
    + apply Z.div_pos; lia.
    + constructor; [|exact Hacc].
      unfold digit_char. pose proof (Z.mod_pos_bound n 10). lia.
Qed.

Lemma digits_ascii (n : Z) : 0 <= n -> ascii_digits (digits n).
Proof. intros H. apply digits_aux_ascii; [exact H | constructor]. Qed.

(** Linear arithmetic with divisions by constants. *)
Ltac dlia := Z.div_mod_to_equations; lia.

(** Two lists of the same length are equal when their items are. *)
Ltac list_eq :=
  repeat match goal with |- cons _ _ = cons _ _ => f_equal end.

Lemma log2_fuel (n b : Z) (k : nat) :
  b <= n -> Z.log2 b = Z.of_nat k -> exists f, Z.to_nat (Z.log2 n) = (k + f)%nat.
Proof.
  intros Hb Hk. pose proof (Z.log2_le_mono b n Hb).
  exists (Z.to_nat (Z.log2 n) - k)%nat. lia.
Qed.

Lemma digits_1 (n : Z) : n <= 9 -> digits n = [digit_char n].
Proof. intros H. unfold digits. apply digits_aux_lt. lia. Qed.

Lemma digits_2 (n : Z) :
  10 <= n <= 99 -> digits n = [digit_char (n / 10); digit_char (n mod 10)].
Proof.
  intros H. unfold digits.
  destruct (log2_fuel n 10 3 ltac:(lia) eq_refl) as [f ->].
  cbn [Nat.add]. rewrite digits_aux_ge, digits_aux_lt by dlia. reflexivity.
Qed.

Lemma digits_3 (n : Z) :
  100 <= n <= 999 ->
  digits n = [digit_char (n / 100); digit_char (n / 10 mod 10); digit_char (n mod 10)].
Proof.
  intros H. unfold digits.
  destruct (log2_fuel n 100 6 ltac:(lia) eq_refl) as [f ->].
  cbn [Nat.add]. rewrite !digits_aux_ge, digits_aux_lt by dlia.
  rewrite Z.div_div by lia. reflexivity.
Qed.

Lemma digits_4 (n : Z) : 1000 <= n <= 9999 -> digits n = four_digits n.
Proof.
  intros H. unfold digits, four_digits.
  destruct (log2_fuel n 1000 9 ltac:(lia) eq_refl) as [f ->].
  cbn [Nat.add]. rewrite !digits_aux_ge, digits_aux_lt by dlia.
  rewrite !Z.div_div by lia. reflexivity.
Qed.

Lemma format_04d_four_digits (n : Z) : 0 <= n <= 9999 -> format_04d n = four_digits n.
Proof.
  intros H. unfold format_04d.
  replace (n <? 0) with false by (symmetry; apply Z.ltb_ge; lia).
  rewrite Z.abs_eq by lia. unfold four_digits.
  destruct (Z_lt_le_dec n 10); [|destruct (Z_lt_le_dec n 100); [|destruct (Z_lt_le_dec n 1000)]].
  - rewrite digits_1 by lia. cbn [length repeat app Nat.sub].
    unfold digit_char; list_eq; dlia.
  - rewrite digits_2 by lia. cbn [length repeat app Nat.sub].
    unfold digit_char; list_eq; dlia.
  - rewrite digits_3 by lia. cbn [length repeat app Nat.sub].
    unfold digit_char; list_eq; dlia.
  - rewrite digits_4 by lia. reflexivity.
Qed.

Lemma four_digits_ascii (n : Z) : 0 <= n <= 9999 -> ascii_digits (four_digits n).
Proof.
  intros H. unfold four_digits, ascii_digits, digit_char.
  repeat constructor; dlia.
Qed.

Lemma four_digits_length (n : Z) : length (four_digits n) = 4%nat.
Proof. reflexivity. Qed.

Lemma format_int_year (y : Z) : 1000 <= y <= 9999 -> format_int y = four_digits y.
Proof.
  intros H. unfold format_int.
  replace (y <? 0) with false by (symmetry; apply Z.ltb_ge; lia).
  apply digits_4, H.
Qed.

(** ** Character classes *)

Lemma in_range_iff (c lo hi : Z) : in_range c lo hi = true <-> lo <= c <= hi.
Proof. unfold in_range. rewrite andb_true_iff, !Z.leb_le. tauto. Qed.

Lemma decimal_ranges_ok : forallb decimal_range_ok decimal_ranges = true.
Proof. reflexivity. Qed.

Lemma isdecimal_inv (c : codepoint) :
  isdecimal c = true ->
  (48 <= c <= 57 \/ 128 <= c <= 130041) /\ ~ (55296 <= c <= 57343).
Proof.
  unfold isdecimal. rewrite existsb_exists. intros [r [Hin Hr]].
  pose proof (proj1 (forallb_forall _ _) decimal_ranges_ok r Hin) as Hok.
  unfold decimal_range_ok in Hok. apply in_range_iff in Hr.
  rewrite !andb_true_iff, !orb_true_iff, !Z.leb_le, !Z.ltb_lt in Hok. lia.
Qed.

Lemma isdecimal_ascii_digit (c : codepoint) : 48 <= c <= 57 -> isdecimal c = true.
Proof.
  intros H. unfold isdecimal. apply existsb_exists.
  exists (48, 57). split; [left; reflexivity | now apply in_range_iff].
Qed.

Lemma all_of_not_in (p : codepoint -> bool) (s : str) (c : codepoint) :
  all_of p s -> p c = false -> ~ In c s.
Proof.
  intros Hs Hc Hin. unfold all_of in Hs. rewrite Forall_forall in Hs.
  specialize (Hs c Hin). congruence.
Qed.

Lemma is_upper_hex_iff (c : codepoint) :
  is_upper_hex c = true <-> 48 <= c <= 57 \/ 65 <= c <= 70.
Proof. unfold is_upper_hex. now rewrite orb_true_iff, !in_range_iff. Qed.

Lemma is_lower_hex_iff (c : codepoint) :
  is_lower_hex c = true <-> 48 <= c <= 57 \/ 97 <= c <= 102.
Proof. unfold is_lower_hex. now rewrite orb_true_iff, !in_range_iff. Qed.

(** ** UTF-8 *)

Lemma encode_ascii (s : str) : ascii s -> encode s = Ok s.
Proof.
  induction 1 as [|c s Hc _ IH]; [reflexivity|].
  simpl. unfold encode_char.
  replace (c <? 0) with false by (symmetry; apply Z.ltb_ge; lia).
  replace (c <? 128) with true by (symmetry; apply Z.ltb_lt; lia).
  now rewrite IH.
Qed.

Lemma encode_app (s t : str) (a b : list Z) :
  encode s = Ok a -> encode t = Ok b -> encode (s ++ t) = Ok (a ++ b).
Proof.
  revert a; induction s as [|c s IH]; simpl; intros a Ha Hb.
  - now injection Ha as <-.
  - destruct (encode_char c) as [bs|]; [|discriminate].
    destruct (encode s) as [r|e]; [|discriminate].
    injection Ha as <-. rewrite (IH r eq_refl Hb). now rewrite app_assoc.
Qed.

Lemma encode_char_decimal (c : codepoint) :
  isdecimal c = true -> encode_char c <> None.
Proof.
  intros H. apply isdecimal_inv in H as [Hr Hs]. unfold encode_char, in_range.
  destruct (Z.ltb_spec c 0); [lia|].
  destruct (Z.ltb_spec c 128); [discriminate|].
  destruct (Z.ltb_spec c 2048); [discriminate|].
  destruct (Z.ltb_spec c 65536).
  - destruct (Z.leb_spec 55296 c), (Z.leb_spec c 57343); simpl; try discriminate; lia.
  - destruct (Z.ltb_spec c 1114112); [discriminate | lia].
Qed.

Lemma encode_decimals (s : str) : all_of isdecimal s -> exists bs, encode s = Ok bs.
Proof.
  induction 1 as [|c s Hc _ [bs IH]]; [now exists []|].
  simpl. destruct (encode_char c) as [b|] eqn:E.
  - rewrite IH. now eexists.
  - now apply encode_char_decimal in Hc.
Qed.

Lemma ascii_app (s t : str) : ascii s -> ascii t -> ascii (s ++ t).
Proof. intros Hs Ht. apply Forall_app. now split. Qed.

Lemma ascii_digits_ascii (s : str) : ascii_digits s -> ascii s.
Proof. apply Forall_impl. intros; lia. Qed.

Lemma format_int_ascii (n : Z) : ascii (format_int n).
Proof.
  unfold format_int. destruct (Z.ltb_spec n 0).
  - constructor; [lia|]. apply ascii_digits_ascii, digits_ascii. lia.
  - apply ascii_digits_ascii, digits_ascii. lia.
Qed.

Lemma format_04d_ascii (n : Z) : ascii (format_04d n).
Proof.
  unfold format_04d. repeat apply ascii_app.
  - destruct (n <? 0); repeat constructor; lia.
  - apply Forall_forall. intros c Hc. apply repeat_spec in Hc. lia.
  - apply ascii_digits_ascii, digits_ascii. lia.
Qed.

Lemma lit_hyphen_ascii : ascii (lit "-").
Proof. repeat constructor; simpl; lia. Qed.

Lemma hash_input_ascii (a b c d : str) :
  ascii a -> ascii b -> ascii c -> ascii d ->
  ascii (a ++ lit "-" ++ b ++ lit "-" ++ c ++ lit "-" ++ d).
Proof.
  intros. repeat (apply ascii_app; auto using lit_hyphen_ascii).
Qed.

(** ** Upper case *)

Lemma upper_char_ascii (c : codepoint) :
  0 <= c < 128 -> upper_char c = [if in_range c 97 122 then c - 32 else c].
Proof.
  intros H. unfold upper_char. destruct (in_range c 97 122); [reflexivity|].
  now replace (c <? 128) with true by (symmetry; apply Z.ltb_lt; lia).
Qed.

Lemma upper_ascii (s : str) :
  ascii s -> upper s = map (fun c => if in_range c 97 122 then c - 32 else c) s.
Proof.
  induction 1 as [|c s Hc _ IH]; [reflexivity|].
  unfold upper in *. simpl. now rewrite IH, upper_char_ascii.
Qed.

Lemma upper_lower_hex (s : str) :
  all_of is_lower_hex s ->
  all_of is_upper_hex (upper s) /\ length (upper s) = length s.
Proof.
  intros Hs. rewrite upper_ascii.
  - split; [|apply length_map]. apply Forall_map.
    eapply Forall_impl; [|exact Hs]. cbv beta. intros c Hc.
    apply is_lower_hex_iff in Hc. apply is_upper_hex_iff.
    destruct (in_range c 97 122) eqn:E.
    + apply in_range_iff in E. lia.
    + destruct Hc as [Hc|Hc]; [lia|].
      assert (in_range c 97 122 = true) by (apply in_range_iff; lia).
      congruence.
  - eapply Forall_impl; [|exact Hs]. cbv beta. intros c Hc.
    apply is_lower_hex_iff in Hc. lia.
Qed.

(** The code points of the ASCII letters, of either case. *)
Lemma upper_latin_letters (s : str) :
  Forall (fun c => 65 <= c <= 90 \/ 97 <= c <= 122) s ->
  all_of is_upper_latin (upper s) /\ length (upper s) = length s.
Proof.
  intros Hs. rewrite upper_ascii.
  - split; [|apply length_map]. apply Forall_map.
    eapply Forall_impl; [|exact Hs]. cbv beta. intros c Hc.
    apply in_range_iff.
    destruct (in_range c 97 122) eqn:E.
    + apply in_range_iff in E. lia.
    + destruct Hc as [Hc|Hc]; [lia|].
      assert (in_range c 97 122 = true) by (apply in_range_iff; lia). congruence.
  - eapply Forall_impl; [|exact Hs]. cbv beta. intros; lia.
Qed.

(** ** The digest as text *)

Lemma hex_char_lower (x : Z) : is_lower_hex (Sha256.hex_char (x mod 16)) = true.
Proof.
  apply is_lower_hex_iff. unfold Sha256.hex_char.
  pose proof (Z.mod_pos_bound x 16 eq_refl).
  destruct (Z.ltb_spec (x mod 16) 10); lia.
Qed.

Lemma hex32_lower (w : Z) : all_of is_lower_hex (Sha256.hex32 w).
Proof. unfold Sha256.hex32. apply Forall_map, Forall_forall. intros; apply hex_char_lower. Qed.

Lemma hex32_length (w : Z) : length (Sha256.hex32 w) = 8%nat.
Proof. reflexivity. Qed.

Lemma hexdigest_first6 (msg : list Z) :
  all_of is_lower_hex (firstn 6 (Sha256.hexdigest msg))
  /\ length (firstn 6 (Sha256.hexdigest msg)) = 6%nat.
Proof.
  unfold Sha256.hexdigest.
  destruct (Sha256.process _ _ _) as [[[[[[[a b] c] d] e] f] g] h].
  rewrite firstn_app, hex32_length. cbn [Nat.sub firstn]. rewrite app_nil_r.
  split.
  - pose proof (hex32_lower a) as H.
    rewrite <- (firstn_skipn 6 (Sha256.hex32 a)) in H.
    now apply Forall_app in H.
  - reflexivity.
Qed.

(** The checksum the generator and the verifier compute is six characters
    of [0-9A-F]. *)
Lemma checksum_shape (msg : list Z) :
  all_of is_upper_hex (upper (firstn 6 (Sha256.hexdigest msg)))
  /\ length (upper (firstn 6 (Sha256.hexdigest msg))) = 6%nat.
Proof.
  destruct (hexdigest_first6 msg) as [H L].
  destruct (upper_lower_hex _ H) as [U LU]. split; [exact U | congruence].
Qed.

(** ** The pattern of the validator *)

Lemma match_rep_spec (k : Re.cclass) (n : nat) : forall s rest,
  Re.match_rep k n s = Some rest <->
  exists pre, s = pre ++ rest /\ length pre = n /\ all_of (Re.cmatch k) pre.
Proof.
  induction n as [|n IH]; intros s rest; simpl.
  - split.
    + intros [= ->]. exists []. repeat split. constructor.
    + intros (pre & -> & L & _). destruct pre; [reflexivity | discriminate].
  - split.
    + destruct s as [|c s]; [discriminate|].
      destruct (Re.cmatch k c) eqn:E; [|discriminate].
      intros H. apply IH in H as (pre & -> & L & F).
      exists (c :: pre). repeat split; [simpl; congruence | now constructor].
    + intros (pre & -> & L & F). destruct pre as [|c pre]; [discriminate|].
      inversion F as [|? ? Hc F']; subst. simpl. rewrite Hc.
      apply IH. exists pre. repeat split; [now injection L | exact F'].
Qed.

Lemma match_lit_one (d : codepoint) (pre : str) :
  length pre = 1%nat -> all_of (Re.cmatch (Re.Lit d)) pre -> pre = [d].
Proof.
  destruct pre as [|c [|? ?]]; try discriminate. intros _ F.
  inversion F as [|? ? Hc _]; subst. simpl in Hc. apply Z.eqb_eq in Hc. now subst.
Qed.

Lemma cmatch_latin (c : codepoint) :
  Re.cmatch (Re.Bracket [(65, 90)]) c = is_upper_latin c.
Proof. unfold is_upper_latin. simpl. apply orb_false_r. Qed.

Lemma cmatch_hex (c : codepoint) :
  Re.cmatch (Re.Bracket [(65, 70); (48, 57)]) c = is_upper_hex c.
Proof.
  unfold is_upper_hex. simpl.
  destruct (in_range c 65 70), (in_range c 48 57); reflexivity.
Qed.

Lemma all_of_ext (p q : codepoint -> bool) (s : str) :
  (forall c, p c = q c) -> all_of p s -> all_of q s.
Proof. intros E. apply Forall_impl. intros c. now rewrite E. Qed.

Lemma at_dollar_iff (rest : str) :
  Re.at_dollar rest = true <-> rest = [] \/ rest = [10].
Proof.
  destruct rest as [|c [|d rest]]; simpl.
  - tauto.
  - rewrite Z.eqb_eq. split; [intros ->; now right | intros [H|H]; congruence].
  - split; [discriminate | intros [H|H]; discriminate].
Qed.

(** The validator accepts exactly the strings of the accepted shape. *)
Lemma validate_iff (s : str) :
  validate_serial_number s = true <->
  exists y cc n v tail, accepted_shape y cc n v tail s.
Proof.
  unfold validate_serial_number, Re.matches, pattern, accepted_shape.
  cbn [Re.match_seq]. split.
  - destruct (Re.match_rep Re.Digit 4 s) as [r1|] eqn:E1; [|discriminate].
    apply match_rep_spec in E1 as (y & -> & Ly & Fy).
    destruct (Re.match_rep (Re.Lit 45) 1 r1) as [r2|] eqn:E2; [|discriminate].
    apply match_rep_spec in E2 as (h1 & -> & L1 & F1).
    apply match_lit_one in F1 as ->; [|exact L1].
    destruct (Re.match_rep _ 2 r2) as [r3|] eqn:E3; [|discriminate].
    apply match_rep_spec in E3 as (cc & -> & Lc & Fc).
    destruct (Re.match_rep (Re.Lit 45) 1 r3) as [r4|] eqn:E4; [|discriminate].
    apply match_rep_spec in E4 as (h2 & -> & L2 & F2).
    apply match_lit_one in F2 as ->; [|exact L2].
    destruct (Re.match_rep Re.Digit 4 r4) as [r5|] eqn:E5; [|discriminate].
    apply match_rep_spec in E5 as (n & -> & Ln & Fn).
    destruct (Re.match_rep (Re.Lit 45) 1 r5) as [r6|] eqn:E6; [|discriminate].
    apply match_rep_spec in E6 as (h3 & -> & L3 & F3).
    apply match_lit_one in F3 as ->; [|exact L3].
    destruct (Re.match_rep _ 6 r6) as [r7|] eqn:E7; [|discriminate].
    apply match_rep_spec in E7 as (v & -> & Lv & Fv).
    intros D. apply at_dollar_iff in D.
    exists y, cc, n, v, r7. repeat split; auto.
    + eapply all_of_ext; [apply cmatch_latin | exact Fc].
    + eapply all_of_ext; [apply cmatch_hex | exact Fv].
  - intros (y & cc & n & v & tail & -> & [Ly Fy] & [Lc Fc] & [Ln Fn] & [Lv Fv] & T).
    rewrite (proj2 (match_rep_spec Re.Digit 4 _ (45 :: cc ++ 45 :: n ++ 45 :: v ++ tail)))
      by (exists y; auto).
    rewrite (proj2 (match_rep_spec (Re.Lit 45) 1 _ (cc ++ 45 :: n ++ 45 :: v ++ tail)))
      by (exists [45]; repeat split; repeat constructor).
    rewrite (proj2 (match_rep_spec _ 2 _ (45 :: n ++ 45 :: v ++ tail)))
      by (exists cc; repeat split; auto;
          eapply all_of_ext; [intros c; symmetry; apply cmatch_latin | exact Fc]).
    rewrite (proj2 (match_rep_spec (Re.Lit 45) 1 _ (n ++ 45 :: v ++ tail)))
      by (exists [45]; repeat split; repeat constructor).
    rewrite (proj2 (match_rep_spec Re.Digit 4 _ (45 :: v ++ tail)))
      by (exists n; auto).
    rewrite (proj2 (match_rep_spec (Re.Lit 45) 1 _ (v ++ tail)))
      by (exists [45]; repeat split; repeat constructor).
    rewrite (proj2 (match_rep_spec _ 6 _ tail))
      by (exists v; repeat split; auto;
          eapply all_of_ext; [intros c; symmetry; apply cmatch_hex | exact Fv]).
    now apply at_dollar_iff.
Qed.

Lemma accepted_valid (y cc n v tail s : str) :
  accepted_shape y cc n v tail s -> validate_serial_number s = true.
Proof. intros H. apply validate_iff. now exists y, cc, n, v, tail. Qed.

Lemma accepted_split (y cc n v tail s : str) :
  accepted_shape y cc n v tail s -> split 45 s = [y; cc; n; v ++ tail].
Proof.
  intros (-> & [_ Fy] & [_ Fc] & [_ Fn] & [_ Fv] & T).
  rewrite split_app by (eapply all_of_not_in; [exact Fy | reflexivity]).
  rewrite split_app by (eapply all_of_not_in; [exact Fc | reflexivity]).
  rewrite split_app by (eapply all_of_not_in; [exact Fn | reflexivity]).
  rewrite split_no_sep; [reflexivity|].
  intros Hin. apply in_app_or in Hin as [Hin|Hin].
  - revert Hin. eapply all_of_not_in; [exact Fv | reflexivity].
  - destruct T as [-> | ->]; simpl in Hin; [tauto | destruct Hin as [Hin|[]]; discriminate].
Qed.

Lemma accepted_length (y cc n v tail s : str) :
  accepted_shape y cc n v tail s -> length s = (19 + length tail)%nat.
Proof.
  intros (-> & [Ly _] & [Lc _] & [Ln _] & [Lv _] & _).
  repeat (rewrite ?length_app; cbn [length]). lia.
Qed.

Lemma verifier_input_encodes (cert : Certificate.t) (y n : str) :
  all_of isdecimal y -> all_of isdecimal n ->
  exists data, encode (verifier_input cert y n) = Ok data.
Proof.
  intros Hy Hn. unfold verifier_input.
  destruct (encode_decimals y Hy) as [by_ Ey].
  destruct (encode_decimals n Hn) as [bn En].
  eexists.
  apply encode_app; [apply encode_ascii, format_int_ascii|].
  apply encode_app; [apply encode_ascii, lit_hyphen_ascii|].
  apply encode_app; [apply encode_ascii, format_int_ascii|].
  apply encode_app; [apply encode_ascii, lit_hyphen_ascii|].
  apply encode_app; [exact Ey|].
  apply encode_app; [apply encode_ascii, lit_hyphen_ascii | exact En].
Qed.

(** ** The four ways through the verifier *)

Lemma verify_invalid_format (db : Store) (s : str) :
  validate_serial_number s = false ->
  verify_certificate_authenticity s db = ([], Ok invalid_format).
Proof.
  intros H. unfold verify_certificate_authenticity. now rewrite H.
Qed.

Lemma verify_not_found (db : Store) (s : str) :
  validate_serial_number s = true ->
  get_certificate_by_serial db s = None ->
  verify_certificate_authenticity s db = ([SelectCertificate s], Ok not_found).
Proof.
  intros H N. unfold verify_certificate_authenticity. rewrite H. cbn [negb].
  unfold bind, query_certificate. now rewrite N.
Qed.

Lemma verify_bad_status (db : Store) (s : str) (cert : Certificate.t) :
  validate_serial_number s = true ->
  get_certificate_by_serial db s = Some cert ->
  status_is_active (Certificate.status cert) = false ->
  verify_certificate_authenticity s db = ([SelectCertificate s], Ok (bad_status cert)).
Proof.
  intros H F A. unfold verify_certificate_authenticity. rewrite H. cbn [negb].
  unfold bind, query_certificate. rewrite F, A. reflexivity.
Qed.

Lemma verify_active (db : Store) (y cc n v tail s : str) (cert : Certificate.t) :
  accepted_shape y cc n v tail s ->
  get_certificate_by_serial db s = Some cert ->
  status_is_active (Certificate.status cert) = true ->
  exists data,
    encode (verifier_input cert y n) = Ok data /\
    verify_certificate_authenticity s db =
    ([SelectCertificate s; Sha256Digest data],
     Ok (if str_eqb (v ++ tail) (upper (firstn 6 (Sha256.hexdigest data)))
         then authentic cert else hash_failed cert)).
Proof.
  intros Hs F A.
  destruct (verifier_input_encodes cert y n) as [data Hd];
    [apply Hs | apply Hs |].
  exists data. split; [exact Hd|].
  unfold verify_certificate_authenticity.
  rewrite (accepted_valid _ _ _ _ _ _ Hs). cbn [negb].
  unfold bind at 1. unfold query_certificate. rewrite F, A. cbn [negb].
  rewrite (accepted_split _ _ _ _ _ _ Hs). cbv zeta.
  unfold verifier_input in Hd.
  unfold bind, lift, sha256_hexdigest, ret. rewrite Hd.
  destruct (str_eqb _ _); reflexivity.
Qed.

Lemma status_is_active_iff (st : option str) :
  status_is_active st = true <-> st = Some (lit "active").
Proof.
  destruct st as [s|]; simpl.
  - rewrite str_eqb_eq. split; [now intros -> | now intros [= ->]].
  - split; discriminate.
Qed.

Example example_serial_is_generated :
  generate_serial_number 2024 1 1 empty_store =
  ([SelectCourse 1; SelectMaxSequential 1 2024; Sha256Digest (lit "1-1-2024-0001")],
   Ok (lit "2024-WD-0001-473895", 1, lit "473895")).
Proof. vm_compute. reflexivity. Qed.

(** ** Verification *)

(** X19. Whatever the string, the verifier returns a result and raises
    nothing; and a string the validator rejects gets the negative result
    that names the invalid format, with no certificate, and no query is
    sent to the store. *)
Theorem verify_total (db : Store) (s : str) :
  exists t r,
    verify_certificate_authenticity s db = (t, Ok r) /\
    (validate_serial_number s = false -> t = [] /\ r = invalid_format).
Proof.
  destruct (validate_serial_number s) eqn:V.
  - apply validate_iff in V as (y & cc & n & v & tail & Hs).
    pose proof (accepted_valid _ _ _ _ _ _ Hs) as V.
    destruct (get_certificate_by_serial db s) as [cert|] eqn:F.
    + destruct (status_is_active (Certificate.status cert)) eqn:A.
      * destruct (verify_active db _ _ _ _ _ _ cert Hs F A) as (data & _ & E).
        rewrite E. do 2 eexists. split; [reflexivity | discriminate].
      * rewrite (verify_bad_status db s cert V F A).
        do 2 eexists. split; [reflexivity | discriminate].
    + rewrite (verify_not_found db s V F).
      do 2 eexists. split; [reflexivity | discriminate].
  - rewrite (verify_invalid_format db s V).
    do 2 eexists. split; [reflexivity | auto].
Qed.

Lemma verify_total_witness :
  exists t r,
    verify_certificate_authenticity (lit "2024-wd-1") empty_store = (t, Ok r) /\
    (validate_serial_number (lit "2024-wd-1") = false -> t = [] /\ r = invalid_format).
Proof. exact (verify_total empty_store (lit "2024-wd-1")). Defined.

(** C9. A malformed serial is to get the result that names the invalid
    format without the store being touched.  The code does not do so for
    every malformed string: a serial followed by a line feed, and a serial
    whose year is written in ARABIC-INDIC digits, are not of the format
    YYYY-CC-NNNN-VVVVVV, yet the validator lets them through, the verifier
    sends the lookup to the store and answers that the certificate was not
    found. *)
Theorem verify_malformed_serial_reaches_store :
  (well_formed (lit "2024-WD-0001-473895" ++ [10]) = false
   /\ verify_certificate_authenticity (lit "2024-WD-0001-473895" ++ [10]) empty_store
      = ([SelectCertificate (lit "2024-WD-0001-473895" ++ [10])], Ok not_found))
  /\ (well_formed ([1634; 1632; 1634; 1636] ++ lit "-WD-0001-473895") = false
      /\ verify_certificate_authenticity
           ([1634; 1632; 1634; 1636] ++ lit "-WD-0001-473895") empty_store
         = ([SelectCertificate ([1634; 1632; 1634; 1636] ++ lit "-WD-0001-473895")],
            Ok not_found)).
Proof. vm_compute. repeat split. Qed.

(** C7. A serial the validator accepts, stored on a certificate whose
    status is not 'active': the result is negative, its reason ends with
    that status, it carries the certificate, and the only effect is the
    lookup: no digest is computed. *)
Theorem status_gating (db : Store) (s : str) (cert : Certificate.t) :
  validate_serial_number s = true ->
  get_certificate_by_serial db s = Some cert ->
  Certificate.status cert <> Some (lit "active") ->
  verify_certificate_authenticity s db =
  ([SelectCertificate s],
   Ok {| is_valid := false;
         reason := lit "Certificate status is " ++ format_status (Certificate.status cert);
         certificate := Some cert |}).
Proof.
  intros V F A. apply (verify_bad_status db s cert V F).
  destruct (status_is_active (Certificate.status cert)) eqn:E; [|reflexivity].
  now apply status_is_active_iff in E.
Qed.

Lemma status_gating_witness :
  verify_certificate_authenticity (lit "2024-WD-0001-473895")
    (example_store (Some (lit "revoked"))) =
  ([SelectCertificate (lit "2024-WD-0001-473895")],
   Ok {| is_valid := false;
         reason := lit "Certificate status is revoked";
         certificate := Some (example_certificate (Some (lit "revoked"))) |}).
Proof.
  apply (status_gating (example_store (Some (lit "revoked")))
           (lit "2024-WD-0001-473895") (example_certificate (Some (lit "revoked")))).
  - vm_compute. reflexivity.
  - vm_compute. reflexivity.
  - vm_compute. discriminate.
Defined.

(** C10. Two stores whose certificate under a serial agree on status,
    student and course: the verifier gives the same verdict and the same
    reason in both, and digests the same bytes, whatever else is stored. *)
Theorem verify_ignores_derived_fields (db1 db2 : Store) (s : str)
  (c1 c2 : Certificate.t) :
  get_certificate_by_serial db1 s = Some c1 ->
  get_certificate_by_serial db2 s = Some c2 ->
  Certificate.status c1 = Certificate.status c2 ->
  Certificate.student_id c1 = Certificate.student_id c2 ->
  Certificate.course_id c1 = Certificate.course_id c2 ->
  exists t r1 r2,
    verify_certificate_authenticity s db1 = (t, Ok r1) /\
    verify_certificate_authenticity s db2 = (t, Ok r2) /\
    is_valid r1 = is_valid r2 /\ reason r1 = reason r2.
Proof.
  intros F1 F2 Est Esid Ecid.
  destruct (validate_serial_number s) eqn:V.
  - apply validate_iff in V as (y & cc & n & v & tail & Hs).
    pose proof (accepted_valid _ _ _ _ _ _ Hs) as V.
    destruct (status_is_active (Certificate.status c1)) eqn:A.
    + destruct (verify_active db1 _ _ _ _ _ _ c1 Hs F1 A) as (d1 & D1 & E1).
      assert (A2 : status_is_active (Certificate.status c2) = true) by congruence.
      destruct (verify_active db2 _ _ _ _ _ _ c2 Hs F2 A2) as (d2 & D2 & E2).
      assert (d2 = d1) as ->.
      { unfold verifier_input in D1, D2. rewrite <- Esid, <- Ecid in D2. congruence. }
      rewrite E1, E2. do 3 eexists. repeat split.
      * now destruct (str_eqb _ _).
      * now destruct (str_eqb _ _).
    + assert (A2 : status_is_active (Certificate.status c2) = false) by congruence.
      rewrite (verify_bad_status db1 s c1 V F1 A), (verify_bad_status db2 s c2 V F2 A2).
      do 3 eexists. repeat split. simpl. now rewrite Est.
  - rewrite !(verify_invalid_format _ s V). do 3 eexists. repeat split.
Qed.

Lemma verify_ignores_derived_fields_witness :
  let c2 := {| Certificate.id := 7;
               Certificate.student_id := 1;
               Certificate.course_id := 1;
               Certificate.serial_number := lit "2024-WD-0001-473895";
               Certificate.sequential_part := 52;
               Certificate.hash_part := lit "000000";
               Certificate.issue_date := None;
               Certificate.issue_year := 1999;
               Certificate.status := Some (lit "active") |} in
  let db2 := {| courses := [Course.mk 1 (lit "DS") (lit "Data Science")];
                certificates := [c2] |} in
  exists t r1 r2,
    verify_certificate_authenticity (lit "2024-WD-0001-473895")
      (example_store (Some (lit "active"))) = (t, Ok r1) /\
    verify_certificate_authenticity (lit "2024-WD-0001-473895") db2 = (t, Ok r2) /\
    is_valid r1 = is_valid r2 /\ reason r1 = reason r2.
Proof.
  intros c2 db2.
  apply (verify_ignores_derived_fields (example_store (Some (lit "active"))) db2
           (lit "2024-WD-0001-473895") (example_certificate (Some (lit "active"))) c2);
    vm_compute; reflexivity.
Defined.

(** ** Generation *)

Lemma spec_hash_input_ascii (student_id course_id year : Z) (padded : str) :
  ascii padded -> ascii (spec_hash_input student_id course_id year padded).
Proof.
  intros H. unfold spec_hash_input.
  apply hash_input_ascii; auto using format_int_ascii.
Qed.

(** What the generator does once the course is found. *)
Lemma generate_found (year student_id course_id : Z) (db : Store) (course : Course.t) :
  get_course db course_id = Some course ->
  let next := or_zero (max_sequential db course_id year) + 1 in
  let input := spec_hash_input student_id course_id year (format_04d next) in
  let checksum := upper (firstn 6 (Sha256.hexdigest input)) in
  generate_serial_number year student_id course_id db =
  ([SelectCourse course_id; SelectMaxSequential course_id year; Sha256Digest input],
   Ok (format_int year ++ lit "-" ++ upper (Course.course_code course) ++ lit "-"
       ++ format_04d next ++ lit "-" ++ checksum,
       next, checksum)).
Proof.
  intros F next input checksum.
  unfold generate_serial_number, bind at 1, query_course. rewrite F.
  unfold bind, query_max_sequential, lift, sha256_hexdigest, ret.
  fold next. fold (spec_hash_input student_id course_id year (format_04d next)).
  fold input.
  rewrite (encode_ascii input)
    by (apply spec_hash_input_ascii, format_04d_ascii).
  reflexivity.
Qed.

(** The three values of a successful generation. *)
Lemma generate_result (year student_id course_id : Z) (db : Store)
  (course : Course.t) (t : list event) (serial checksum : str) (sequence : Z) :
  get_course db course_id = Some course ->
  generate_serial_number year student_id course_id db
  = (t, Ok (serial, sequence, checksum)) ->
  sequence = or_zero (max_sequential db course_id year) + 1
  /\ checksum = upper (firstn 6 (Sha256.hexdigest
                  (spec_hash_input student_id course_id year (format_04d sequence))))
  /\ serial = format_int year ++ lit "-" ++ upper (Course.course_code course)
              ++ lit "-" ++ format_04d sequence ++ lit "-" ++ checksum.
Proof.
  intros F G.
  rewrite (generate_found year student_id course_id db course F) in G.
  cbv zeta in G.
  assert (E1 : or_zero (max_sequential db course_id year) + 1 = sequence) by congruence.
  rewrite E1 in G. split; [now symmetry|].
  assert (E2 : upper (firstn 6 (Sha256.hexdigest
                 (spec_hash_input student_id course_id year (format_04d sequence))))
               = checksum) by congruence.
  rewrite E2 in G. split; [now symmetry | congruence].
Qed.

Lemma generate_missing (year student_id course_id : Z) (db : Store) :
  get_course db course_id = None ->
  generate_serial_number year student_id course_id db =
  ([SelectCourse course_id],
   Raise (ValueError (lit "Course with ID " ++ format_int course_id ++ lit " not found"))).
Proof.
  intros F. unfold generate_serial_number, bind, query_course. now rewrite F.
Qed.

Lemma get_course_none (db : Store) (course_id : Z) :
  get_course db course_id = None <->
  (forall c, In c (courses db) -> Course.id c <> course_id).
Proof.
  unfold get_course. split.
  - intros H c Hin E. apply (find_none _ _ H) in Hin. apply Z.eqb_neq in Hin. tauto.
  - intros H. destruct (find _ _) as [c|] eqn:E; [|reflexivity].
    apply find_some in E as [Hin E]. apply Z.eqb_eq in E. now apply H in Hin.
Qed.

(** C8. With no course of the given id in the store, the generator raises
    the error that says the course was not found, after the one query for
    the course and before the query for the maximum; with such a course it
    returns, having sent both queries. *)
Theorem missing_course_failure (year student_id course_id : Z) (db : Store) :
  ((forall c, In c (courses db) -> Course.id c <> course_id) ->
   generate_serial_number year student_id course_id db =
   ([SelectCourse course_id],
    Raise (ValueError (lit "Course with ID " ++ format_int course_id ++ lit " not found"))))
  /\
  ((exists c, In c (courses db) /\ Course.id c = course_id) ->
   exists data g,
     generate_serial_number year student_id course_id db =
     ([SelectCourse course_id; SelectMaxSequential course_id year; Sha256Digest data],
      Ok g)).
Proof.
  split.
  - intros H. now apply generate_missing, get_course_none.
  - intros (c & Hin & E).
    destruct (get_course db course_id) as [course|] eqn:F.
    + rewrite (generate_found year student_id course_id db course F).
      now do 2 eexists.
    + exfalso. rewrite get_course_none in F. exact (F c Hin E).
Qed.

Lemma missing_course_failure_witness :
  generate_serial_number 2024 1 2 empty_store =
  ([SelectCourse 2], Raise (ValueError (lit "Course with ID 2 not found")))
  /\
  exists data g,
    generate_serial_number 2024 1 1 empty_store =
    ([SelectCourse 1; SelectMaxSequential 1 2024; Sha256Digest data], Ok g).
Proof.
  split.
  - apply (proj1 (missing_course_failure 2024 1 2 empty_store)).
    intros c [<-|[]]. vm_compute. discriminate.
  - apply (proj2 (missing_course_failure 2024 1 1 empty_store)).
    exists example_course. split; [left; reflexivity | reflexivity].
Defined.

(** C6. The checksum the generator returns is the first six hexadecimal
    characters, uppercased, of the SHA-256 digest of the UTF-8 bytes of
    "{student_id}-{course_id}-{year}-{padded_sequence}", the ids as
    numbers; and two calls that allocate the same sequence return the same
    checksum. *)
Theorem checksum_definition (year student_id course_id : Z) (db : Store) :
  (exists c, In c (courses db) /\ Course.id c = course_id) ->
  exists t serial sequence checksum,
    generate_serial_number year student_id course_id db
    = (t, Ok (serial, sequence, checksum)) /\
    spec_checksum student_id course_id year (format_04d sequence) = Ok checksum /\
    (forall db' t' serial' checksum',
       generate_serial_number year student_id course_id db'
       = (t', Ok (serial', sequence, checksum')) -> checksum' = checksum).
Proof.
  intros (c & Hin & E).
  destruct (get_course db course_id) as [course|] eqn:F;
    [|exfalso; rewrite get_course_none in F; exact (F c Hin E)].
  rewrite (generate_found year student_id course_id db course F).
  do 4 eexists. split; [reflexivity|]. split.
  - unfold spec_checksum, checksum_of.
    now rewrite encode_ascii by (apply spec_hash_input_ascii, format_04d_ascii).
  - intros db' t' serial' checksum' G.
    destruct (get_course db' course_id) as [course'|] eqn:F'.
    + rewrite (generate_found year student_id course_id db' course' F') in G.
      injection G as _ _ Eseq Eck. rewrite <- Eck. cbv zeta. now rewrite Eseq.
    + rewrite (generate_missing year student_id course_id db' F') in G. discriminate.
Qed.

Lemma checksum_definition_witness :
  exists t serial sequence checksum,
    generate_serial_number 2024 1 1 empty_store = (t, Ok (serial, sequence, checksum)) /\
    spec_checksum 1 1 2024 (format_04d sequence) = Ok checksum /\
    (forall db' t' serial' checksum',
       generate_serial_number 2024 1 1 db' = (t', Ok (serial', sequence, checksum')) ->
       checksum' = checksum).
Proof.
  apply (checksum_definition 2024 1 1 empty_store).
  exists example_course. split; [left; reflexivity | reflexivity].
Defined.

(** ** The format *)

Ltac invert_foralls :=
  repeat match goal with
         | H : Forall _ (_ :: _) |- _ => inversion H; clear H; subst
         | H : Forall _ [] |- _ => clear H
         end.

Ltac explode_lengths :=
  repeat match goal with
         | H : length ?l = S _ |- _ =>
             destruct l as [|? ?]; [discriminate H | cbn [length] in H; apply eq_add_S in H]
         | H : length ?l = O |- _ =>
             destruct l; [clear H | discriminate H]
         end.

(** A conjunction of boolean tests, each one assumed, evident, or a range
    test that arithmetic settles. *)
Ltac conjuncts :=
  first [ assumption
        | reflexivity
        | apply in_range_iff; lia
        | apply andb_true_intro; split; conjuncts ].

(** A string of the accepted shape with nothing after the checksum and
    ASCII digits only is of the format the specification words. *)
Lemma accepted_well_formed (y cc n v s : str) :
  accepted_shape y cc n v [] s -> ascii_digits y -> ascii_digits n ->
  well_formed s = true.
Proof.
  intros (-> & [Ly _] & [Lc Fc] & [Ln _] & [Lv Fv] & _) Dy Dn.
  unfold all_of, ascii_digits in *. explode_lengths. invert_foralls.
  cbn [app well_formed forallb].
  conjuncts.
Qed.

Lemma well_formed_accepted (s : str) :
  well_formed s = true ->
  exists y cc n v,
    accepted_shape y cc n v [] s /\ ascii_digits y /\ ascii_digits n.
Proof.
  intros H.
  do 19 (destruct s as [|? s]; [discriminate H|]).
  destruct s; [|discriminate H].
  cbn [well_formed forallb] in H.
  rewrite !andb_true_iff in H. unfold is_ascii_digit in H.
  rewrite !in_range_iff, !Z.eqb_eq in H.
  destruct H as [[[[[[(Y1 & Y2 & Y3 & Y4 & _) ->] (C1 & C2 & _)] ->]
                    (N1 & N2 & N3 & N4 & _)] ->] (V1 & V2 & V3 & V4 & V5 & V6 & _)].
  eexists [_; _; _; _], [_; _], [_; _; _; _], [_; _; _; _; _; _].
  unfold accepted_shape, all_of, ascii_digits.
  repeat split; repeat constructor;
    try assumption; try (apply isdecimal_ascii_digit; assumption); auto; lia.
Qed.

Lemma well_formed_length (s : str) : well_formed s = true -> length s = 19%nat.
Proof.
  intros H.
  do 19 (destruct s as [|? s]; [discriminate H|]).
  destruct s; [reflexivity | discriminate H].
Qed.

(** C3, as stated, fails: the format has 19 characters and not 18; and
    the pattern also accepts one line feed after the checksum, and decimal
    digits that are not ASCII (here ARABIC-INDIC DIGITs in the year). *)
Lemma validator_definition_counterexample :
  (validate_serial_number (lit "2024-WD-0001-A1B2C3") = true
   /\ length (lit "2024-WD-0001-A1B2C3") = 19%nat)
  /\ (validate_serial_number (lit "2024-WD-0001-A1B2C3" ++ [10]) = true
      /\ well_formed (lit "2024-WD-0001-A1B2C3" ++ [10]) = false)
  /\ (validate_serial_number ([1634; 1632; 1634; 1636] ++ lit "-WD-0001-A1B2C3") = true
      /\ well_formed ([1634; 1632; 1634; 1636] ++ lit "-WD-0001-A1B2C3") = false).
Proof. vm_compute. repeat split. Qed.

Lemma well_formed_ascii (s : str) : well_formed s = true -> ascii s.
Proof.
  intros H. apply well_formed_accepted in H
    as (y & cc & n & v & (-> & _ & [_ Fc] & _ & [_ Fv] & _) & Dy & Dn).
  unfold ascii. rewrite app_nil_r.
  repeat (apply Forall_app; split) || (apply Forall_cons; [lia|]).
  - eapply Forall_impl; [|exact Dy]. cbv beta. intros; lia.
  - eapply Forall_impl; [|exact Fc]. cbv beta. intros c Hc.
    apply in_range_iff in Hc. lia.
  - eapply Forall_impl; [|exact Dn]. cbv beta. intros; lia.
  - eapply Forall_impl; [|exact Fv]. cbv beta. intros c Hc.
    apply is_upper_hex_iff in Hc. lia.
Qed.

(** C3, amended. For a string with no decimal digit outside ASCII and not
    ending in a line feed, the validator returns true if and only if the
    string is exactly of the form YYYY-CC-NNNN-VVVVVV; and a string of that
    form is ASCII and 19 characters wide. *)
Theorem validator_definition (s : str) :
  Forall (fun c => isdecimal c = true -> c < 128) s ->
  last s 0 <> 10 ->
  (validate_serial_number s = true <-> well_formed s = true)
  /\ (well_formed s = true -> length s = 19%nat /\ ascii s).
Proof.
  intros Hd Hl. split; [split|].
  - intros V. apply validate_iff in V as (y & cc & n & v & tail & Hs).
    assert (tail = []) as ->.
    { destruct Hs as (-> & [Ly _] & [Lc _] & [Ln _] & [Lv _] & [T|T]); [exact T|].
      subst tail. exfalso. apply Hl. explode_lengths. reflexivity. }
    assert (D : forall p, all_of isdecimal p -> (forall c, In c p -> In c s) ->
                          ascii_digits p).
    { intros p Fp Hin. apply Forall_forall. intros c Hc.
      rewrite Forall_forall in Hd. specialize (Hd c (Hin c Hc)).
      unfold all_of in Fp. rewrite Forall_forall in Fp. specialize (Fp c Hc).
      destruct (isdecimal_inv c Fp) as [[R|R] _]; [exact R | specialize (Hd Fp); lia]. }
    apply (accepted_well_formed y cc n v s Hs).
    + apply D; [apply Hs|]. destruct Hs as (-> & _). intros c Hc.
      apply in_or_app. now left.
    + apply D; [apply Hs|]. destruct Hs as (-> & _). intros c Hc.
      apply in_or_app; right; right.
      apply in_or_app; right; right.
      apply in_or_app. now left.
  - intros W. apply well_formed_accepted in W as (y & cc & n & v & Hs & _).
    exact (accepted_valid _ _ _ _ _ _ Hs).
  - intros W. split; [now apply well_formed_length | now apply well_formed_ascii].
Qed.

Lemma validator_definition_witness :
  (validate_serial_number (lit "2024-WD-0001-A1B2C3") = true
   <-> well_formed (lit "2024-WD-0001-A1B2C3") = true)
  /\ (well_formed (lit "2024-WD-0001-A1B2C3") = true ->
      length (lit "2024-WD-0001-A1B2C3") = 19%nat /\ ascii (lit "2024-WD-0001-A1B2C3")).
Proof.
  apply (validator_definition (lit "2024-WD-0001-A1B2C3")).
  - repeat (constructor; [intros _; vm_compute; reflexivity|]). constructor.
  - vm_compute. discriminate.
Defined.

(** ** Format closure *)

(** The serial the generator composes, when the year has four digits, the
    course code is two letters and the sequence is between 1 and 9999. *)
Lemma generated_serial_shape (year next : Z) (code checksum : str) :
  1000 <= year <= 9999 -> two_letters code -> 1 <= next <= 9999 ->
  length checksum = 6%nat -> all_of is_upper_hex checksum ->
  accepted_shape (four_digits year) (upper code) (four_digits next) checksum []
    (format_int year ++ lit "-" ++ upper code ++ lit "-"
     ++ format_04d next ++ lit "-" ++ checksum).
Proof.
  intros Hy [Lc Fc] Hn Lk Fk.
  destruct (upper_latin_letters code Fc) as [Uc Lu].
  rewrite format_int_year, format_04d_four_digits by lia.
  unfold accepted_shape. rewrite app_nil_r.
  repeat split; auto; try congruence.
  - eapply Forall_impl; [|apply (four_digits_ascii year); lia].
    cbv beta. intros c Hc. now apply isdecimal_ascii_digit.
  - eapply Forall_impl; [|apply (four_digits_ascii next); lia].
    cbv beta. intros c Hc. now apply isdecimal_ascii_digit.
Qed.

(** C4, as stated, fails: past sequence 9999 the serial has five digits,
    and a course code that is not two letters goes into the serial as it
    is; the validator rejects both serials. *)
Lemma format_closure_counterexample :
  (snd (generate_serial_number 2024 2 1 overflow_store)
   = Ok (lit "2024-WD-10000-A9495D", 10000, lit "A9495D")
   /\ validate_serial_number (lit "2024-WD-10000-A9495D") = false)
  /\ (snd (generate_serial_number 2024 1 1 digit_code_store)
      = Ok (lit "2024-W1-0001-473895", 1, lit "473895")
      /\ validate_serial_number (lit "2024-W1-0001-473895") = false).
Proof. vm_compute. repeat split. Qed.

(** C4, amended. When the course code is two ASCII letters (of either
    case), the year has four digits and the partition's maximum is between
    0 and 9998 (or the partition is empty), the generator returns a serial
    that the validator accepts, and that is of the format
    YYYY-CC-NNNN-VVVVVV. *)
Theorem format_closure (year student_id course_id : Z) (db : Store)
  (course : Course.t) :
  get_course db course_id = Some course ->
  two_letters (Course.course_code course) ->
  1000 <= year <= 9999 ->
  0 <= or_zero (max_sequential db course_id year) <= 9998 ->
  exists t serial sequence checksum,
    generate_serial_number year student_id course_id db
    = (t, Ok (serial, sequence, checksum)) /\
    validate_serial_number serial = true /\ well_formed serial = true.
Proof.
  intros F Hc Hy Hm.
  rewrite (generate_found year student_id course_id db course F).
  do 4 eexists. split; [reflexivity|].
  match goal with
  | |- context [Sha256.hexdigest ?i] => destruct (checksum_shape i) as [Fk Lk]
  end.
  pose proof (generated_serial_shape year _ _ _ Hy Hc
                ltac:(instantiate (1 := or_zero (max_sequential db course_id year) + 1); lia)
                Lk Fk) as S.
  split.
  - exact (accepted_valid _ _ _ _ _ _ S).
  - apply (accepted_well_formed _ _ _ _ _ S).
    + apply four_digits_ascii; lia.
    + apply four_digits_ascii; lia.
Qed.

Lemma format_closure_witness :
  exists t serial sequence checksum,
    generate_serial_number 2024 1 1 empty_store = (t, Ok (serial, sequence, checksum)) /\
    validate_serial_number serial = true /\ well_formed serial = true.
Proof.
  apply (format_closure 2024 1 1 empty_store example_course).
  - reflexivity.
  - split; [reflexivity|].
    change (Course.course_code example_course) with [87; 68].
    repeat constructor; lia.
  - lia.
  - vm_compute. split; discriminate.
Defined.

(** ** Generation, insert, verification *)

Lemma find_snoc {A : Type} (f : A -> bool) (l : list A) (a : A) :
  existsb f l = false -> f a = true -> find f (l ++ [a]) = Some a.
Proof.
  induction l as [|b l IH]; simpl; intros E Fa.
  - now rewrite Fa.
  - apply orb_false_elim in E as [Eb El]. rewrite Eb. now apply IH.
Qed.

Lemma insert_lookup (db db' : Store) (cert : Certificate.t) :
  insert_certificate db cert = Some db' ->
  get_certificate_by_serial db' (Certificate.serial_number cert) = Some cert.
Proof.
  unfold insert_certificate, get_certificate_by_serial.
  destruct (existsb _ _) eqn:E; [discriminate|]. intros [= <-]. simpl.
  apply find_snoc; [exact E | apply str_eqb_refl].
Qed.

(** C1, as stated, fails: the serial generated past sequence 9999, stored
    on an active certificate, is refused by the verifier for its format. *)
Lemma verification_symmetry_counterexample :
  let g := (lit "2024-WD-10000-A9495D", 10000, lit "A9495D") in
  snd (generate_serial_number 2024 2 1 overflow_store) = Ok g
  /\ exists db',
       insert_certificate overflow_store (new_certificate overflow_store 2024 2 1 g)
       = Some db'
       /\ snd (verify_certificate_authenticity (lit "2024-WD-10000-A9495D") db')
          = Ok invalid_format.
Proof.
  split; [vm_compute; reflexivity|].
  eexists. split; vm_compute; reflexivity.
Qed.

(** C1, amended. When the course code is two ASCII letters, the year has
    four digits and the allocated sequence is between 1 and 9999: once a
    certificate with the generated serial, that student, that course and
    status 'active' has been inserted, the verifier finds the serial
    authentic, with that certificate in the result. *)
Theorem verification_symmetry (year student_id course_id : Z) (db db' : Store)
  (course : Course.t) (t : list event) (serial checksum : str) (sequence : Z)
  (cert : Certificate.t) :
  get_course db course_id = Some course ->
  two_letters (Course.course_code course) ->
  1000 <= year <= 9999 ->
  1 <= sequence <= 9999 ->
  generate_serial_number year student_id course_id db
  = (t, Ok (serial, sequence, checksum)) ->
  Certificate.serial_number cert = serial ->
  Certificate.student_id cert = student_id ->
  Certificate.course_id cert = course_id ->
  Certificate.status cert = Some (lit "active") ->
  insert_certificate db cert = Some db' ->
  exists t', verify_certificate_authenticity serial db' = (t', Ok (authentic cert)).
Proof.
  intros F Hc Hy Hn G Es Esid Ecid Est Ins.
  destruct (generate_result _ _ _ _ _ _ _ _ _ F G) as (_ & Eck & Eserial).
  set (input := spec_hash_input student_id course_id year (format_04d sequence)) in *.
  destruct (checksum_shape input) as [Fk Lk]. rewrite <- Eck in Fk, Lk.
  pose proof (generated_serial_shape year sequence _ checksum Hy Hc Hn Lk Fk) as S.
  rewrite <- Eserial in S.
  pose proof (insert_lookup db db' cert Ins) as L. rewrite Es in L.
  assert (A : status_is_active (Certificate.status cert) = true)
    by now apply status_is_active_iff.
  destruct (verify_active db' _ _ _ _ _ _ cert S L A) as (data & D & E).
  assert (data = input) as ->.
  { unfold verifier_input in D. rewrite Esid, Ecid in D.
    rewrite <- (format_int_year year Hy) in D.
    rewrite <- (format_04d_four_digits sequence) in D by lia.
    fold (spec_hash_input student_id course_id year (format_04d sequence)) in D.
    fold input in D.
    rewrite (encode_ascii input) in D
      by (apply spec_hash_input_ascii, format_04d_ascii).
    now injection D. }
  rewrite E, app_nil_r, <- Eck, str_eqb_refl. now eexists.
Qed.

Lemma verification_symmetry_witness :
  exists t',
    verify_certificate_authenticity (lit "2024-WD-0001-473895")
      (example_store (Some (lit "active")))
    = (t', Ok (authentic (example_certificate (Some (lit "active"))))).
Proof.
  apply (verification_symmetry 2024 1 1 empty_store
           (example_store (Some (lit "active"))) example_course
           [SelectCourse 1; SelectMaxSequential 1 2024; Sha256Digest (lit "1-1-2024-0001")]
           (lit "2024-WD-0001-473895") (lit "473895") 1
           (example_certificate (Some (lit "active")))).
  - reflexivity.
  - split; [reflexivity|].
    change (Course.course_code example_course) with [87; 68].
    repeat constructor; lia.
  - lia.
  - lia.
  - vm_compute. reflexivity.
  - reflexivity.
  - reflexivity.
  - reflexivity.
  - reflexivity.
  - vm_compute. reflexivity.
Defined.

(** ** Tampering with the checksum segment *)

Lemma replace_at_nth (i : nat) (ch : codepoint) : forall s,
  (i < length s)%nat -> nth i (replace_at i ch s) 0 = ch.
Proof.
  induction i as [|i IH]; intros [|c s] L; simpl in *; try lia; auto.
  apply IH. lia.
Qed.

Lemma replace_at_changes (i : nat) (ch : codepoint) (s : str) :
  (i < length s)%nat -> nth i s 0 <> ch -> replace_at i ch s <> s.
Proof.
  intros L N E. apply N. rewrite <- E at 1. now apply replace_at_nth.
Qed.

(** What an authentic verdict says about the serial and the store. *)
Lemma verify_authentic_inv (db : Store) (s : str) (cert : Certificate.t) :
  snd (verify_certificate_authenticity s db) = Ok (authentic cert) ->
  exists y cc n v tail data,
    accepted_shape y cc n v tail s
    /\ get_certificate_by_serial db s = Some cert
    /\ encode (verifier_input cert y n) = Ok data
    /\ v ++ tail = upper (firstn 6 (Sha256.hexdigest data)).
Proof.
  intros H.
  destruct (validate_serial_number s) eqn:V;
    [|rewrite (verify_invalid_format db s V) in H; discriminate].
  apply validate_iff in V as (y & cc & n & v & tail & Hs).
  pose proof (accepted_valid _ _ _ _ _ _ Hs) as V.
  destruct (get_certificate_by_serial db s) as [c|] eqn:F;
    [|rewrite (verify_not_found db s V F) in H; discriminate].
  destruct (status_is_active (Certificate.status c)) eqn:A;
    [|rewrite (verify_bad_status db s c V F A) in H; discriminate].
  destruct (verify_active db _ _ _ _ _ _ c Hs F A) as (data & D & E).
  rewrite E in H. cbn [snd] in H.
  destruct (str_eqb _ _) eqn:Q; [|discriminate].
  injection H as <-. apply str_eqb_eq in Q.
  now exists y, cc, n, v, tail, data.
Qed.

(** C2, as stated, fails: the altered serial is looked up as it is, no
    certificate is stored under it, and the reason is that it was not
    found. *)
Lemma tamper_detection_counterexample :
  let db := example_store (Some (lit "active")) in
  let s := lit "2024-WD-0001-473895" in
  let s' := replace_at 18 54 s in
  snd (verify_certificate_authenticity s db)
  = Ok (authentic (example_certificate (Some (lit "active"))))
  /\ s' = lit "2024-WD-0001-473896"
  /\ validate_serial_number s' = true
  /\ snd (verify_certificate_authenticity s' db) = Ok not_found
  /\ reason not_found <> lit "Hash verification failed - certificate may be forged".
Proof. vm_compute. repeat split. discriminate. Qed.

(** C2, amended. A serial the verifier finds authentic, with one character
    of its checksum segment changed to another so that the validator still
    accepts it: when no certificate is stored under the altered serial the
    verdict is negative with the reason that the certificate was not
    found; when an active certificate of the same student and course is
    stored under it, the verdict is negative with the reason that the hash
    verification failed. *)
Theorem tamper_detection (db : Store) (s : str) (cert : Certificate.t)
  (i : nat) (ch : codepoint) :
  snd (verify_certificate_authenticity s db) = Ok (authentic cert) ->
  (i < 6)%nat ->
  nth (13 + i) s 0 <> ch ->
  validate_serial_number (replace_at (13 + i) ch s) = true ->
  (get_certificate_by_serial db (replace_at (13 + i) ch s) = None ->
   snd (verify_certificate_authenticity (replace_at (13 + i) ch s) db) = Ok not_found)
  /\
  (forall cert',
     get_certificate_by_serial db (replace_at (13 + i) ch s) = Some cert' ->
     Certificate.status cert' = Some (lit "active") ->
     Certificate.student_id cert' = Certificate.student_id cert ->
     Certificate.course_id cert' = Certificate.course_id cert ->
     snd (verify_certificate_authenticity (replace_at (13 + i) ch s) db)
     = Ok (hash_failed cert')).
Proof.
  intros H Hi Hne V'. split.
  - intros N. now rewrite (verify_not_found db _ V' N).
  - intros cert' F' Est Esid Ecid.
    apply verify_authentic_inv in H
      as (y & cc & n & v & tail & data & Hs & F & D & Q).
    apply validate_iff in V' as (y' & cc' & n' & v' & tail' & Hs').
    assert (A : status_is_active (Certificate.status cert') = true)
      by now apply status_is_active_iff.
    destruct (verify_active db _ _ _ _ _ _ cert' Hs' F' A) as (data' & D' & E').
    rewrite E'. cbn [snd].
    (* the two serials agree up to the checksum segment, and differ in it *)
    assert (P : y' = y /\ n' = n /\ v' ++ tail' <> v ++ tail).
    { destruct Hs as (Es & [Ly _] & [Lc _] & [Ln _] & [Lv _] & _).
      destruct Hs' as (Es' & [Ly' _] & [Lc' _] & [Ln' _] & [Lv' _] & _).
      assert (Li : (i < length (v ++ tail))%nat) by (rewrite length_app; lia).
      clear - Es Es' Ly Lc Ln Ly' Lc' Ln' Li Hne.
      explode_lengths. subst s. cbn [app Nat.add replace_at nth] in Es', Hne.
      injection Es' as -> -> -> -> -> -> -> -> -> -> R.
      repeat split. rewrite <- R.
      now apply replace_at_changes. }
    destruct P as (-> & -> & Pne).
    assert (data' = data) as ->.
    { unfold verifier_input in D, D'. rewrite Esid, Ecid in D'. congruence. }
    rewrite <- Q.
    now apply str_eqb_neq in Pne as ->.
Qed.

Lemma tamper_detection_witness :
  let db := {| courses := [example_course];
               certificates :=
                 [ example_certificate (Some (lit "active"));
                   {| Certificate.id := 2;
                      Certificate.student_id := 1;
                      Certificate.course_id := 1;
                      Certificate.serial_number := lit "2024-WD-0001-473896";
                      Certificate.sequential_part := 1;
                      Certificate.hash_part := lit "473896";
                      Certificate.issue_date := None;
                      Certificate.issue_year := 2024;
                      Certificate.status := Some (lit "active") |} ] |} in
  (get_certificate_by_serial db (lit "2024-WD-0001-47389A") = None ->
   snd (verify_certificate_authenticity (lit "2024-WD-0001-47389A") db) = Ok not_found)
  /\
  (forall cert',
     get_certificate_by_serial db (lit "2024-WD-0001-473896") = Some cert' ->
     Certificate.status cert' = Some (lit "active") ->
     Certificate.student_id cert' = 1 ->
     Certificate.course_id cert' = 1 ->
     snd (verify_certificate_authenticity (lit "2024-WD-0001-473896") db)
     = Ok (hash_failed cert')).
Proof.
  intros db. split.
  - apply (tamper_detection db (lit "2024-WD-0001-473895")
             (example_certificate (Some (lit "active"))) 5 65).
    + vm_compute. reflexivity.
    + lia.
    + vm_compute. discriminate.
    + vm_compute. reflexivity.
  - apply (tamper_detection db (lit "2024-WD-0001-473895")
             (example_certificate (Some (lit "active"))) 5 54).
    + vm_compute. reflexivity.
    + lia.
    + vm_compute. discriminate.
    + vm_compute. reflexivity.
Defined.

(** ** Sequence allocation *)

Lemma max_sequential_fold (db : Store) (course_id year : Z) :
  max_sequential db course_id year
  = fold_left (max_step course_id year) (certificates db) None.
Proof. reflexivity. Qed.

(** The aggregate over a list of rows, from any starting value: it is the
    starting value when no row is selected, and otherwise a bound of the
    selected rows and of the starting value that one of them attains. *)
Lemma fold_max_spec (course_id year : Z) (l : list Certificate.t) :
  forall acc : option Z,
    let sel := filter (fun c => (Certificate.course_id c =? course_id)
                                && (Certificate.issue_year c =? year)) l in
    match fold_left (max_step course_id year) l acc with
    | None => acc = None /\ sel = []
    | Some m =>
        (acc = Some m \/ In m (map Certificate.sequential_part sel))
        /\ (forall a, acc = Some a -> a <= m)
        /\ Forall (fun c => Certificate.sequential_part c <= m) sel
    end.
Proof.
  induction l as [|c l IH]; intros acc; cbn [fold_left filter].
  - destruct acc as [a|]; cbn; [|now split].
    repeat split; [now left | intros ? [= ->]; lia | constructor].
  - unfold max_step at 2.
    destruct ((Certificate.course_id c =? course_id)
              && (Certificate.issue_year c =? year)) eqn:P.
    + specialize (IH (match acc with
                      | None => Some (Certificate.sequential_part c)
                      | Some m => Some (Z.max m (Certificate.sequential_part c))
                      end)).
      cbv zeta in IH.
      destruct acc as [a|];
        (destruct (fold_left _ l _) as [m|]; [|destruct IH; discriminate]);
        destruct IH as (I1 & I2 & I3).
      * specialize (I2 _ eq_refl). repeat split.
        -- destruct I1 as [[= I1]|I1]; [|right; now right].
           destruct (Z.max_spec a (Certificate.sequential_part c)) as [[? Q]|[? Q]].
           ++ right. left. lia.
           ++ left. f_equal. lia.
        -- intros ? [= <-]. lia.
        -- constructor; [lia | exact I3].
      * specialize (I2 _ eq_refl). repeat split.
        -- right. destruct I1 as [[= I1]|I1]; [now left | now right].
        -- discriminate.
        -- constructor; [lia | exact I3].
    + exact (IH acc).
Qed.

Lemma max_sequential_spec (db : Store) (course_id year : Z) :
  match max_sequential db course_id year with
  | None => partition db course_id year = []
  | Some m =>
      In m (map Certificate.sequential_part (partition db course_id year))
      /\ Forall (fun c => Certificate.sequential_part c <= m)
                (partition db course_id year)
  end.
Proof.
  rewrite max_sequential_fold.
  pose proof (fold_max_spec course_id year (certificates db) None) as H.
  cbv zeta in H. fold (partition db course_id year) in H.
  destruct (fold_left _ _ _) as [m|].
  - destruct H as ([H|H] & _ & B); [discriminate | now split].
  - apply H.
Qed.

Lemma or_zero_partition_max (db : Store) (course_id year : Z) :
  or_zero (max_sequential db course_id year) = partition_max db course_id year.
Proof.
  unfold or_zero, partition_max.
  destruct (max_sequential db course_id year) as [m|]; [|reflexivity].
  destruct (Z.eqb_spec m 0); congruence.
Qed.

(** One issuance allocates the maximum plus one and makes it the maximum. *)
Lemma issue_next (year course_id : Z) (db db' : Store) (student_id n : Z) :
  issue year course_id db student_id = Some (db', n) ->
  n = partition_max db course_id year + 1
  /\ partition_max db' course_id year = n.
Proof.
  unfold issue. intros H.
  destruct (get_course db course_id) as [course|] eqn:F.
  - rewrite (generate_found year student_id course_id db course F) in H.
    cbv zeta in H. cbn [snd fst] in H.
    unfold insert_certificate in H. destruct (existsb _ _); [discriminate|].
    assert (E1 : db' = {| courses := courses db;
                          certificates := certificates db ++
                            [new_certificate db year student_id course_id
                               (format_int year ++ lit "-" ++ upper (Course.course_code course)
                                ++ lit "-" ++ format_04d (or_zero (max_sequential db course_id year) + 1)
                                ++ lit "-" ++ upper (firstn 6 (Sha256.hexdigest
                                     (spec_hash_input student_id course_id year
                                        (format_04d (or_zero (max_sequential db course_id year) + 1))))),
                                or_zero (max_sequential db course_id year) + 1,
                                upper (firstn 6 (Sha256.hexdigest
                                     (spec_hash_input student_id course_id year
                                        (format_04d (or_zero (max_sequential db course_id year) + 1))))))] |})
      by congruence.
    assert (E2 : n = or_zero (max_sequential db course_id year) + 1) by congruence.
    clear H. rewrite or_zero_partition_max in E2. split; [exact E2|].
    subst db'. unfold partition_max at 1.
    rewrite max_sequential_fold. cbn [certificates].
    rewrite fold_left_app. cbn [fold_left].
    rewrite <- max_sequential_fold.
    unfold max_step, new_certificate.
    cbn [Certificate.course_id Certificate.issue_year Certificate.sequential_part].
    rewrite !Z.eqb_refl. cbn [andb].
    rewrite or_zero_partition_max. unfold partition_max in *.
    destruct (max_sequential db course_id year) as [m|]; lia.
  - rewrite (generate_missing year student_id course_id db F) in H. discriminate.
Qed.

Lemma issue_all_sequences (year course_id : Z) (students : list Z) :
  forall db db' ns,
    issue_all year course_id db students = Some (db', ns) ->
    ns = map (fun k => partition_max db course_id year + Z.of_nat k)
             (seq 1 (length students)).
Proof.
  induction students as [|s rest IH]; intros db db' ns H; cbn [issue_all] in H.
  - now injection H as _ <-.
  - destruct (issue year course_id db s) as [[db1 n]|] eqn:I; [|discriminate].
    destruct (issue_all year course_id db1 rest) as [[db2 ns']|] eqn:R; [|discriminate].
    injection H as _ <-.
    apply issue_next in I as [En Em]. apply IH in R. subst ns'.
    cbn [length seq map]. f_equal; [lia|].
    rewrite <- (seq_shift _ 1), map_map. apply map_ext. intros k. lia.
Qed.

(** C5. The maximum the generator reads is the largest [sequential_part]
    among the certificates of the course and the year, and there is none
    when there are no such certificates; the sequence returned is that
    maximum, or 0 when there is none, plus 1; and issuances made and
    persisted one after the other in a partition that was empty are given
    the sequences 1, 2, ..., N in order. *)
Theorem sequence_allocation (year course_id : Z) (db : Store) :
  match max_sequential db course_id year with
  | None => partition db course_id year = []
  | Some m =>
      In m (map Certificate.sequential_part (partition db course_id year))
      /\ Forall (fun c => Certificate.sequential_part c <= m)
                (partition db course_id year)
  end
  /\ (forall student_id course,
        get_course db course_id = Some course ->
        exists t serial checksum,
          generate_serial_number year student_id course_id db
          = (t, Ok (serial, partition_max db course_id year + 1, checksum)))
  /\ (forall students db' ns,
        partition db course_id year = [] ->
        issue_all year course_id db students = Some (db', ns) ->
        ns = map Z.of_nat (seq 1 (length students))).
Proof.
  split; [apply max_sequential_spec|]. split.
  - intros student_id course F.
    rewrite (generate_found year student_id course_id db course F).
    cbv zeta. rewrite or_zero_partition_max. now do 3 eexists.
  - intros students db' ns E H.
    apply issue_all_sequences in H. rewrite H.
    pose proof (max_sequential_spec db course_id year) as M.
    unfold partition_max.
    destruct (max_sequential db course_id year) as [m|].
    + destruct M as [M _]. rewrite E in M. destruct M.
    + apply map_ext. intros k. lia.
Qed.

Lemma sequence_allocation_witness :
  (exists t serial checksum,
     generate_serial_number 2024 7 1 overflow_store = (t, Ok (serial, 10000, checksum)))
  /\ (exists db',
        issue_all 2024 1 empty_store [1; 2; 3] = Some (db', [1; 2; 3])).
Proof.
  split.
  - apply (proj1 (proj2 (sequence_allocation 2024 1 overflow_store)) 7 example_course).
    reflexivity.
  - destruct (issue_all 2024 1 empty_store [1; 2; 3]) as [[db' ns]|] eqn:E.
    + exists db'. f_equal. f_equal.
      apply (proj2 (proj2 (sequence_allocation 2024 1 empty_store)) [1; 2; 3] db' ns);
        [reflexivity | exact E].
    + vm_compute in E. discriminate E.
Defined.

(** * Further properties of the validator and the verifier *)

(** X1. The strings the validator accepts are exactly those made of four
    decimal digits (of any script), a hyphen, two letters of A-Z, a hyphen,
    four decimal digits, a hyphen and six characters of 0-9A-F, followed by
    nothing or by one line feed. *)
Theorem validator_accepts_exactly (s : str) :
  validate_serial_number s = true <->
  exists y cc n v tail,
    s = y ++ lit "-" ++ cc ++ lit "-" ++ n ++ lit "-" ++ v ++ tail
    /\ (length y = 4%nat /\ all_of isdecimal y)
    /\ (length cc = 2%nat /\ all_of is_upper_latin cc)
    /\ (length n = 4%nat /\ all_of isdecimal n)
    /\ (length v = 6%nat /\ all_of is_upper_hex v)
    /\ (tail = [] \/ tail = [10]).
Proof. apply validate_iff. Qed.

(** X2. A serial the validator accepts has exactly three hyphens: cut at
    the hyphens it gives four parts, of 4, 2, 4 and 6 or 7 characters, so
    the unpacking into year, course code, sequence and checksum cannot
    fail. *)
Theorem accepted_serial_has_four_parts (s : str) :
  validate_serial_number s = true ->
  exists year course_code sequential provided_hash,
    split 45 s = [year; course_code; sequential; provided_hash]
    /\ length year = 4%nat /\ length course_code = 2%nat
    /\ length sequential = 4%nat
    /\ (length provided_hash = 6%nat \/ length provided_hash = 7%nat).
Proof.
  intros V. apply validate_iff in V as (y & cc & n & v & tail & Hs).
  exists y, cc, n, (v ++ tail). split; [exact (accepted_split _ _ _ _ _ _ Hs)|].
  destruct Hs as (_ & [Ly _] & [Lc _] & [Ln _] & [Lv _] & T).
  repeat split; auto. rewrite length_app, Lv.
  destruct T as [-> | ->]; [left | right]; reflexivity.
Qed.

Lemma accepted_serial_has_four_parts_witness :
  exists year course_code sequential provided_hash,
    split 45 (lit "2024-WD-0001-A1B2C3")
    = [year; course_code; sequential; provided_hash]
    /\ length year = 4%nat /\ length course_code = 2%nat
    /\ length sequential = 4%nat
    /\ (length provided_hash = 6%nat \/ length provided_hash = 7%nat).
Proof.
  apply (accepted_serial_has_four_parts (lit "2024-WD-0001-A1B2C3")).
  vm_compute. reflexivity.
Defined.

(** Of a string the validator accepts, a final line feed is what follows
    the checksum, not part of it. *)
Lemma accepted_last_newline (y cc n v tail s : str) :
  accepted_shape y cc n v tail s -> last s 0 = 10 -> tail = [10].
Proof.
  intros (-> & [Ly _] & [Lc _] & [Ln _] & [Lv Fv] & [-> | ->]) L; [|reflexivity].
  exfalso. unfold all_of in Fv. explode_lengths. invert_foralls.
  cbn [app last] in L. subst.
  match goal with
  | H : is_upper_hex 10 = true |- _ => vm_compute in H; discriminate H
  end.
Qed.

(** X3. A string that ends in a line feed is never found authentic: the
    validator may accept it, but its checksum segment then has seven
    characters and the recomputed checksum has six. *)
Theorem trailing_newline_never_authentic (db : Store) (s : str) :
  last s 0 = 10 ->
  exists t r, verify_certificate_authenticity s db = (t, Ok r) /\ is_valid r = false.
Proof.
  intros L.
  destruct (validate_serial_number s) eqn:V.
  - apply validate_iff in V as (y & cc & n & v & tail & Hs).
    pose proof (accepted_valid _ _ _ _ _ _ Hs) as V.
    destruct (get_certificate_by_serial db s) as [cert|] eqn:F.
    + destruct (status_is_active (Certificate.status cert)) eqn:A.
      * destruct (verify_active db _ _ _ _ _ _ cert Hs F A) as (data & _ & E).
        rewrite E. do 2 eexists. split; [reflexivity|].
        destruct (str_eqb _ _) eqn:Q; [|reflexivity]. exfalso.
        apply str_eqb_eq in Q.
        destruct (checksum_shape data) as [_ L6].
        pose proof (accepted_last_newline _ _ _ _ _ _ Hs L) as ->.
        destruct Hs as (_ & _ & _ & _ & [Lv _] & _).
        rewrite <- Q, length_app, Lv in L6. discriminate.
      * rewrite (verify_bad_status db s cert V F A). now do 2 eexists.
    + rewrite (verify_not_found db s V F). now do 2 eexists.
  - rewrite (verify_invalid_format db s V). now do 2 eexists.
Qed.

Lemma trailing_newline_never_authentic_witness :
  let s := lit "2024-WD-0001-473895" ++ [10] in
  let db := {| courses := [example_course];
               certificates :=
                 [ {| Certificate.id := 1;
                      Certificate.student_id := 1;
                      Certificate.course_id := 1;
                      Certificate.serial_number := s;
                      Certificate.sequential_part := 1;
                      Certificate.hash_part := lit "473895";
                      Certificate.issue_date := None;
                      Certificate.issue_year := 2024;
                      Certificate.status := Some (lit "active") |} ] |} in
  validate_serial_number s = true
  /\ exists t r, verify_certificate_authenticity s db = (t, Ok r) /\ is_valid r = false.
Proof.
  intros s db. split; [vm_compute; reflexivity|].
  apply (trailing_newline_never_authentic db s). vm_compute. reflexivity.
Defined.

(** X4. The verdict is positive exactly when the validator accepts the
    serial, a certificate is stored under it, that certificate is active,
    and the fourth part of the serial is the checksum recomputed from the
    stored student and course ids and the first and third parts of the
    serial; the result then carries that certificate. *)
Theorem authentic_iff (db : Store) (s : str) (cert : Certificate.t) :
  snd (verify_certificate_authenticity s db) = Ok (authentic cert) <->
  validate_serial_number s = true
  /\ get_certificate_by_serial db s = Some cert
  /\ Certificate.status cert = Some (lit "active")
  /\ exists year course_code sequential provided_hash,
       split 45 s = [year; course_code; sequential; provided_hash]
       /\ checksum_of (verifier_input cert year sequential) = Ok provided_hash.
Proof.
  split.
  - intros H. pose proof H as H'.
    apply verify_authentic_inv in H as (y & cc & n & v & tail & data & Hs & F & D & Q).
    split; [exact (accepted_valid _ _ _ _ _ _ Hs)|]. split; [exact F|]. split.
    + destruct (status_is_active (Certificate.status cert)) eqn:A;
        [now apply status_is_active_iff|].
      rewrite (verify_bad_status db s cert (accepted_valid _ _ _ _ _ _ Hs) F A) in H'.
      discriminate.
    + exists y, cc, n, (v ++ tail). split; [exact (accepted_split _ _ _ _ _ _ Hs)|].
      unfold checksum_of. now rewrite D, Q.
  - intros (V & F & St & y' & cc' & n' & v' & Sp & C).
    apply validate_iff in V as (y & cc & n & v & tail & Hs).
    rewrite (accepted_split _ _ _ _ _ _ Hs) in Sp. injection Sp as <- <- <- <-.
    assert (A : status_is_active (Certificate.status cert) = true)
      by now apply status_is_active_iff.
    destruct (verify_active db _ _ _ _ _ _ cert Hs F A) as (data & D & E).
    rewrite E. cbn [snd]. unfold checksum_of in C. rewrite D in C.
    injection C as <-. now rewrite str_eqb_refl.
Qed.

(** X5. Whatever the verifier returns as the certificate of its result is a
    row of the store whose serial number is the string that was verified;
    and a positive verdict always carries one, with status 'active'. *)
Theorem result_certificate_is_stored (db : Store) (s : str) (t : list event)
  (r : VerificationResult) :
  verify_certificate_authenticity s db = (t, Ok r) ->
  (forall c, certificate r = Some c ->
             In c (certificates db) /\ Certificate.serial_number c = s)
  /\ (is_valid r = true ->
      exists c, certificate r = Some c
                /\ Certificate.status c = Some (lit "active")).
Proof.
  intros H.
  assert (Hf : forall c, get_certificate_by_serial db s = Some c ->
                         In c (certificates db) /\ Certificate.serial_number c = s).
  { intros c F. apply find_some in F as [Hin E]. split; [exact Hin|].
    now apply str_eqb_eq. }
  destruct (validate_serial_number s) eqn:V.
  - apply validate_iff in V as (y & cc & n & v & tail & Hs).
    pose proof (accepted_valid _ _ _ _ _ _ Hs) as V.
    destruct (get_certificate_by_serial db s) as [cert|] eqn:F.
    + destruct (status_is_active (Certificate.status cert)) eqn:A.
      * destruct (verify_active db _ _ _ _ _ _ cert Hs F A) as (data & _ & E).
        rewrite E in H. injection H as _ <-.
        apply status_is_active_iff in A.
        destruct (str_eqb _ _); cbn; split;
          solve [ intros c [= <-]; now apply Hf
                | discriminate
                | intros _; now exists cert ].
      * rewrite (verify_bad_status db s cert V F A) in H. injection H as _ <-.
        cbn. split; [intros c [= <-]; now apply Hf | discriminate].
    + rewrite (verify_not_found db s V F) in H. injection H as _ <-.
      cbn. split; [discriminate | discriminate].
  - rewrite (verify_invalid_format db s V) in H. injection H as _ <-.
    cbn. split; [discriminate | discriminate].
Qed.

Lemma result_certificate_is_stored_witness :
  let db := example_store (Some (lit "revoked")) in
  let s := lit "2024-WD-0001-473895" in
  (forall c, certificate (bad_status (example_certificate (Some (lit "revoked")))) = Some c ->
             In c (certificates db) /\ Certificate.serial_number c = s)
  /\ (is_valid (bad_status (example_certificate (Some (lit "revoked")))) = true ->
      exists c, certificate (bad_status (example_certificate (Some (lit "revoked")))) = Some c
                /\ Certificate.status c = Some (lit "active")).
Proof.
  intros db s.
  apply (result_certificate_is_stored db s [SelectCertificate s]).
  vm_compute. reflexivity.
Defined.

(** X6. The verifier sends at most one query, the lookup of the serial it
    was given, and computes at most one digest, after that lookup; it never
    reads the courses nor the maximum of a partition. *)
Theorem verify_effects (db : Store) (s : str) :
  let t := fst (verify_certificate_authenticity s db) in
  t = [] \/ t = [SelectCertificate s]
  \/ exists data, t = [SelectCertificate s; Sha256Digest data].
Proof.
  cbv zeta.
  destruct (validate_serial_number s) eqn:V.
  - apply validate_iff in V as (y & cc & n & v & tail & Hs).
    pose proof (accepted_valid _ _ _ _ _ _ Hs) as V.
    destruct (get_certificate_by_serial db s) as [cert|] eqn:F.
    + destruct (status_is_active (Certificate.status cert)) eqn:A.
      * destruct (verify_active db _ _ _ _ _ _ cert Hs F A) as (data & _ & E).
        rewrite E. right. right. now exists data.
      * rewrite (verify_bad_status db s cert V F A). right. now left.
    + rewrite (verify_not_found db s V F). right. now left.
  - rewrite (verify_invalid_format db s V). now left.
Qed.

(** * Further properties of the generator *)

(** X7. The sequence the generator returns is greater than the
    [sequential_part] of every certificate stored for the course and the
    year: it repeats none of them. *)
Theorem sequence_fresh (year student_id course_id : Z) (db : Store)
  (t : list event) (serial checksum : str) (sequence : Z) :
  generate_serial_number year student_id course_id db
  = (t, Ok (serial, sequence, checksum)) ->
  Forall (fun c => Certificate.sequential_part c < sequence)
         (partition db course_id year).
Proof.
  intros G.
  destruct (get_course db course_id) as [course|] eqn:F;
    [|rewrite (generate_missing year student_id course_id db F) in G; discriminate].
  destruct (generate_result _ _ _ _ _ _ _ _ _ F G) as (-> & _ & _).
  rewrite or_zero_partition_max. unfold partition_max.
  pose proof (max_sequential_spec db course_id year) as M.
  destruct (max_sequential db course_id year) as [m|].
  - destruct M as [_ M]. eapply Forall_impl; [|exact M]. cbv beta. intros; lia.
  - rewrite M. constructor.
Qed.

Lemma sequence_fresh_witness :
  Forall (fun c => Certificate.sequential_part c < 10000)
         (partition overflow_store 1 2024).
Proof.
  apply (sequence_fresh 2024 2 1 overflow_store
           [SelectCourse 1; SelectMaxSequential 1 2024; Sha256Digest (lit "2-1-2024-10000")]
           (lit "2024-WD-10000-A9495D") (lit "A9495D") 10000).
  vm_compute. reflexivity.
Defined.

Lemma ascii_digits_no_hyphen (s : str) : ascii_digits s -> ~ In 45 s.
Proof.
  intros D Hin. unfold ascii_digits in D. rewrite Forall_forall in D.
  specialize (D 45 Hin). lia.
Qed.

Lemma format_04d_nonneg (n : Z) :
  0 <= n -> ascii_digits (format_04d n).
Proof.
  intros H. unfold format_04d.
  replace (n <? 0) with false by (symmetry; apply Z.ltb_ge; lia).
  cbn [app length]. apply Forall_app. split.
  - apply Forall_forall. intros c Hc. apply repeat_spec in Hc. lia.
  - apply digits_ascii. lia.
Qed.

(** X8. Cut at its hyphens, the serial the generator returns gives back
    the four strings it was composed of: the year, the course code in
    upper case, the padded sequence and the checksum; provided the year
    and the sequence are not negative and the course code has no hyphen. *)
Theorem generated_serial_splits (year student_id course_id : Z) (db : Store)
  (course : Course.t) (t : list event) (serial checksum : str) (sequence : Z) :
  get_course db course_id = Some course ->
  generate_serial_number year student_id course_id db
  = (t, Ok (serial, sequence, checksum)) ->
  0 <= year -> 0 <= sequence ->
  ~ In 45 (upper (Course.course_code course)) ->
  split 45 serial
  = [format_int year; upper (Course.course_code course); format_04d sequence; checksum].
Proof.
  intros F G Hy Hn Hc.
  destruct (generate_result _ _ _ _ _ _ _ _ _ F G) as (_ & Eck & ->).
  change (lit "-") with [45]. cbn [app].
  rewrite split_app.
  2:{ apply ascii_digits_no_hyphen. unfold format_int.
      replace (year <? 0) with false by (symmetry; apply Z.ltb_ge; lia).
      now apply digits_ascii. }
  rewrite split_app by exact Hc.
  rewrite split_app by now apply ascii_digits_no_hyphen, format_04d_nonneg.
  rewrite split_no_sep; [reflexivity|].
  rewrite Eck.
  match goal with
  | |- context [Sha256.hexdigest ?i] => destruct (checksum_shape i) as [Fk _]
  end.
  eapply all_of_not_in; [exact Fk | reflexivity].
Qed.

Lemma generated_serial_splits_witness :
  split 45 (lit "2024-WD-10000-A9495D")
  = [format_int 2024; upper (Course.course_code example_course);
     format_04d 10000; lit "A9495D"].
Proof.
  apply (generated_serial_splits 2024 2 1 overflow_store example_course
           [SelectCourse 1; SelectMaxSequential 1 2024; Sha256Digest (lit "2-1-2024-10000")]).
  - reflexivity.
  - vm_compute. reflexivity.
  - lia.
  - lia.
  - vm_compute. intros [H|[H|[]]]; discriminate H.
Defined.

Lemma digits_aux_longer (f : nat) : forall n acc,
  (length acc < length (digits_aux (S f) n acc))%nat.
Proof.
  induction f as [|f IH]; intros n acc.
  - cbn [digits_aux]. destruct (n <? 10); cbn [length]; lia.
  - change (digits_aux (S (S f)) n acc)
      with (if n <? 10 then digit_char n :: acc
            else digits_aux (S f) (n / 10) (digit_char (n mod 10) :: acc)).
    destruct (n <? 10); cbn [length]; [lia|].
    specialize (IH (n / 10) (digit_char (n mod 10) :: acc)). cbn [length] in IH. lia.
Qed.

(** From 10000 on the padded sequence is the plain decimal text, of five
    digits at least. *)
Lemma format_04d_overflow (n : Z) :
  10000 <= n ->
  exists d1 d2 d3 d4 d5 rest,
    format_04d n = d1 :: d2 :: d3 :: d4 :: d5 :: rest /\ 48 <= d5 <= 57.
Proof.
  intros H.
  assert (L : (5 <= length (digits n))%nat).
  { unfold digits.
    destruct (log2_fuel n 10000 13 ltac:(lia) eq_refl) as [f ->].
    cbn [Nat.add]. rewrite !digits_aux_ge by dlia.
    match goal with
    | |- context [digits_aux (S ?g) ?m ?acc] =>
        pose proof (digits_aux_longer g m acc) as P
    end.
    cbn [length] in P. lia. }
  pose proof (digits_ascii n ltac:(lia)) as D.
  unfold format_04d.
  replace (n <? 0) with false by (symmetry; apply Z.ltb_ge; lia).
  rewrite Z.abs_eq by lia. cbn [length app].
  replace (4 - 0 - length (digits n))%nat with 0%nat by lia. cbn [repeat app].
  destruct (digits n) as [|d1 [|d2 [|d3 [|d4 [|d5 rest]]]]]; cbn [length] in L; try lia.
  unfold ascii_digits in D. invert_foralls.
  now exists d1, d2, d3, d4, d5, rest.
Qed.

Lemma generated_serial_shape_from_zero (year next : Z) (code checksum : str) :
  1000 <= year <= 9999 -> two_letters code -> 0 <= next <= 9999 ->
  length checksum = 6%nat -> all_of is_upper_hex checksum ->
  accepted_shape (four_digits year) (upper code) (four_digits next) checksum []
    (format_int year ++ lit "-" ++ upper code ++ lit "-"
     ++ format_04d next ++ lit "-" ++ checksum).
Proof.
  intros Hy [Lc Fc] Hn Lk Fk.
  destruct (upper_latin_letters code Fc) as [Uc Lu].
  rewrite format_int_year, format_04d_four_digits by lia.
  unfold accepted_shape. rewrite app_nil_r.
  repeat split; auto; try congruence.
  - eapply Forall_impl; [|apply (four_digits_ascii year); lia].
    cbv beta. intros c Hc. now apply isdecimal_ascii_digit.
  - eapply Forall_impl; [|apply (four_digits_ascii next); lia].
    cbv beta. intros c Hc. now apply isdecimal_ascii_digit.
Qed.

(** X9. With a course code of two letters and a year of four digits, the
    serial the generator returns is accepted by the validator exactly when
    the sequence is between 0 and 9999: from 10000 on, and below 0, the
    generator returns a serial its own validator rejects. *)
Theorem serial_accepted_iff_sequence_in_range (year student_id course_id : Z)
  (db : Store) (course : Course.t) (t : list event) (serial checksum : str)
  (sequence : Z) :
  get_course db course_id = Some course ->
  two_letters (Course.course_code course) ->
  1000 <= year <= 9999 ->
  generate_serial_number year student_id course_id db
  = (t, Ok (serial, sequence, checksum)) ->
  (validate_serial_number serial = true <-> 0 <= sequence <= 9999).
Proof.
  intros F Hc Hy G.
  destruct (generate_result _ _ _ _ _ _ _ _ _ F G) as (_ & Eck & Es).
  destruct (checksum_shape (spec_hash_input student_id course_id year
                              (format_04d sequence))) as [Fk Lk].
  rewrite <- Eck in Fk, Lk.
  split.
  - intros V. apply validate_iff in V as (y & cc & n & v & tail & Hs).
    destruct Hs as (E & [Ly _] & [Lc _] & [Ln Fn] & _).
    rewrite Es, format_int_year in E by exact Hy.
    destruct Hc as [Lcode Fcode].
    destruct (upper_latin_letters _ Fcode) as [_ Lu]. rewrite Lcode in Lu.
    destruct (upper (Course.course_code course)) as [|u1 [|u2 [|? ?]]];
      try discriminate Lu.
    change (lit "-") with [45] in E. unfold four_digits in E.
    unfold all_of in Fn. explode_lengths. invert_foralls.
    cbn [app] in E.
    destruct (Z_lt_le_dec sequence 0) as [Neg|Pos].
    + exfalso. unfold format_04d in E.
      replace (sequence <? 0) with true in E by (symmetry; apply Z.ltb_lt; lia).
      cbn [app] in E. injection E as _ _ _ _ _ _ E _.
      subst. match goal with
             | H : isdecimal 45 = true |- _ => vm_compute in H; discriminate H
             end.
    + destruct (Z_le_gt_dec sequence 9999) as [Le|Gt]; [lia|]. exfalso.
      destruct (format_04d_overflow sequence ltac:(lia))
        as (d1 & d2 & d3 & d4 & d5 & rest & Ef & D5).
      rewrite Ef in E. cbn [app] in E. injection E as _ _ _ _ _ _ _ _ _ _ E _. lia.
  - intros R.
    pose proof (generated_serial_shape_from_zero year sequence _ checksum
                  Hy Hc R Lk Fk) as S.
    rewrite <- Es in S. exact (accepted_valid _ _ _ _ _ _ S).
Qed.

Lemma serial_accepted_iff_sequence_in_range_witness :
  validate_serial_number (lit "2024-WD-10000-A9495D") = true <-> 0 <= 10000 <= 9999.
Proof.
  apply (serial_accepted_iff_sequence_in_range 2024 2 1 overflow_store example_course
           [SelectCourse 1; SelectMaxSequential 1 2024; Sha256Digest (lit "2-1-2024-10000")]
           (lit "2024-WD-10000-A9495D") (lit "A9495D") 10000).
  - reflexivity.
  - split; [reflexivity|].
    change (Course.course_code example_course) with [87; 68].
    repeat constructor; lia.
  - lia.
  - vm_compute. reflexivity.
Defined.

Lemma cons_inj {A : Type} (a b : A) (l m : list A) :
  a :: l = b :: m -> a = b /\ l = m.
Proof. intros E. now injection E. Qed.

Lemma four_digits_injective (a b : Z) :
  0 <= a <= 9999 -> 0 <= b <= 9999 -> four_digits a = four_digits b -> a = b.
Proof.
  intros Ha Hb E. unfold four_digits, digit_char in E.
  apply cons_inj in E as [E1 E]. apply cons_inj in E as [E2 E].
  apply cons_inj in E as [E3 E]. apply cons_inj in E as [E4 _].
  rewrite (Z.div_mod a 10), (Z.div_mod b 10) by lia.
  replace (a mod 10) with (b mod 10) by lia. f_equal. f_equal.
  rewrite (Z.div_mod (a / 10) 10), (Z.div_mod (b / 10) 10) by lia.
  replace (a / 10 mod 10) with (b / 10 mod 10) by lia. f_equal. f_equal.
  rewrite !Z.div_div by lia. change (10 * 10) with 100.
  rewrite (Z.div_mod (a / 100) 10), (Z.div_mod (b / 100) 10) by lia.
  replace (a / 100 mod 10) with (b / 100 mod 10) by lia. f_equal. f_equal.
  rewrite !Z.div_div by lia. change (100 * 10) with 1000. lia.
Qed.

(** X10. Two serials generated for the same course in the same year with
    different sequences, both between 0 and 9999, are different strings,
    whoever the students are: below the overflow the unique serial number
    tells the sequences apart. *)
Theorem distinct_sequences_distinct_serials (year course_id s1 s2 : Z)
  (db1 db2 : Store) (course : Course.t) (t1 t2 : list event)
  (serial1 serial2 c1 c2 : str) (n1 n2 : Z) :
  get_course db1 course_id = Some course ->
  get_course db2 course_id = Some course ->
  generate_serial_number year s1 course_id db1 = (t1, Ok (serial1, n1, c1)) ->
  generate_serial_number year s2 course_id db2 = (t2, Ok (serial2, n2, c2)) ->
  0 <= n1 <= 9999 -> 0 <= n2 <= 9999 -> n1 <> n2 ->
  serial1 <> serial2.
Proof.
  intros F1 F2 G1 G2 R1 R2 Ne E. apply Ne.
  destruct (generate_result _ _ _ _ _ _ _ _ _ F1 G1) as (_ & _ & E1).
  destruct (generate_result _ _ _ _ _ _ _ _ _ F2 G2) as (_ & _ & E2).
  rewrite E1, E2 in E.
  rewrite !format_04d_four_digits in E by lia.
  apply app_inv_head in E. apply app_inv_head in E.
  apply app_inv_head in E. apply app_inv_head in E.
  apply four_digits_injective; [exact R1 | exact R2|].
  unfold four_digits in *. cbn [app] in E.
  apply cons_inj in E as [-> E]. apply cons_inj in E as [-> E].
  apply cons_inj in E as [-> E]. now apply cons_inj in E as [-> _].
Qed.

Lemma distinct_sequences_distinct_serials_witness :
  lit "2024-WD-0001-473895" <> lit "2024-WD-0002-5DAFE0".
Proof.
  apply (distinct_sequences_distinct_serials 2024 1 1 1
           empty_store (example_store (Some (lit "active"))) example_course
           [SelectCourse 1; SelectMaxSequential 1 2024; Sha256Digest (lit "1-1-2024-0001")]
           [SelectCourse 1; SelectMaxSequential 1 2024; Sha256Digest (lit "1-1-2024-0002")]
           (lit "2024-WD-0001-473895") (lit "2024-WD-0002-5DAFE0")
           (lit "473895") (lit "5DAFE0") 1 2).
  - reflexivity.
  - reflexivity.
  - vm_compute. reflexivity.
  - vm_compute. reflexivity.
  - lia.
  - lia.
  - lia.
Defined.

(** X11. Once an issuance has been persisted, the next generation for the
    course and the year returns the sequence that follows the one just
    allocated. *)
Theorem next_sequence_follows (year course_id : Z) (db db' : Store)
  (student_id student_id' n : Z) :
  issue year course_id db student_id = Some (db', n) ->
  exists t serial checksum,
    generate_serial_number year student_id' course_id db'
    = (t, Ok (serial, n + 1, checksum)).
Proof.
  intros I. pose proof (issue_next _ _ _ _ _ _ I) as [_ M].
  assert (F : exists course, get_course db' course_id = Some course).
  { unfold issue in I.
    destruct (get_course db course_id) as [course|] eqn:F.
    - exists course.
      destruct (snd (generate_serial_number year student_id course_id db)) as [g|];
        [|discriminate].
      unfold insert_certificate in I. destruct (existsb _ _); [discriminate|].
      injection I as <- _. exact F.
    - rewrite (generate_missing year student_id course_id db F) in I. discriminate. }
  destruct F as [course F].
  rewrite (generate_found year student_id' course_id db' course F).
  cbv zeta. rewrite or_zero_partition_max, M. now do 3 eexists.
Qed.

Lemma next_sequence_follows_witness :
  match issue 2024 1 empty_store 1 with
  | Some (db', n) =>
      exists t serial checksum,
        generate_serial_number 2024 2 1 db' = (t, Ok (serial, n + 1, checksum))
  | None => False
  end.
Proof.
  destruct (issue 2024 1 empty_store 1) as [[db' n]|] eqn:E.
  - exact (next_sequence_follows 2024 1 empty_store db' 1 2 n E).
  - vm_compute in E. discriminate E.
Defined.

(** X18. Whatever the store, the student and the year, the checksum the
    generator returns is six characters of 0-9A-F, and the serial is the
    text before it followed by a hyphen and that checksum. *)
Theorem generated_checksum_shape (year student_id course_id : Z) (db : Store)
  (t : list event) (serial checksum : str) (sequence : Z) :
  generate_serial_number year student_id course_id db
  = (t, Ok (serial, sequence, checksum)) ->
  length checksum = 6%nat /\ all_of is_upper_hex checksum
  /\ exists front, serial = front ++ lit "-" ++ checksum
                   /\ length serial = (length front + 7)%nat.
Proof.
  intros G.
  destruct (get_course db course_id) as [course|] eqn:F;
    [|rewrite (generate_missing year student_id course_id db F) in G; discriminate].
  destruct (generate_result _ _ _ _ _ _ _ _ _ F G) as (_ & Eck & Es).
  destruct (checksum_shape (spec_hash_input student_id course_id year
                              (format_04d sequence))) as [Fk Lk].
  rewrite <- Eck in Fk, Lk. split; [exact Lk|]. split; [exact Fk|].
  exists (format_int year ++ lit "-" ++ upper (Course.course_code course)
          ++ lit "-" ++ format_04d sequence).
  split.
  - rewrite Es. now rewrite <- !app_assoc.
  - rewrite Es. repeat rewrite length_app. rewrite Lk.
    change (length (lit "-")) with 1%nat. lia.
Qed.

Lemma generated_checksum_shape_witness :
  length (lit "A9495D") = 6%nat /\ all_of is_upper_hex (lit "A9495D")
  /\ exists front, lit "2024-WD-10000-A9495D" = front ++ lit "-" ++ lit "A9495D"
                   /\ length (lit "2024-WD-10000-A9495D") = (length front + 7)%nat.
Proof.
  apply (generated_checksum_shape 2024 2 1 overflow_store
           [SelectCourse 1; SelectMaxSequential 1 2024; Sha256Digest (lit "2-1-2024-10000")]
           (lit "2024-WD-10000-A9495D") (lit "A9495D") 10000).
  vm_compute. reflexivity.
Defined.

(** * Properties of the statistics *)

Example stats_example :
  get_certificate_stats_by_year 2024 stats_store None =
  {| Stats.year := 2024;
     Stats.total_certificates := 3;
     Stats.by_course := [CourseStat.mk (lit "WD") (lit "Web Development") 2];
     Stats.by_status := [StatusStat.mk (Some (lit "active")) 2;
                         StatusStat.mk (Some (lit "revoked")) 1] |}.
Proof. vm_compute. reflexivity. Qed.

(** ** Grouping and counting *)

Section GroupCount.

Variable K : Type.
Variable eqb : K -> K -> bool.
Hypothesis eqb_eq : forall a b, eqb a b = true <-> a = b.

Lemma bump_sum (k : K) (acc : list (K * Z)) :
  sum_counts (bump eqb k acc) = sum_counts acc + 1.
Proof.
  induction acc as [|[k' n] acc IH]; cbn [bump sum_counts fold_right snd]; [lia|].
  destruct (eqb k' k); cbn [sum_counts fold_right snd].
  - fold (sum_counts acc). lia.
  - fold (sum_counts (bump eqb k acc)) (sum_counts acc). lia.
Qed.

Lemma fold_bump_sum (keys : list K) : forall acc,
  sum_counts (fold_left (fun a k => bump eqb k a) keys acc)
  = sum_counts acc + Z.of_nat (length keys).
Proof.
  induction keys as [|k keys IH]; intros acc; cbn [fold_left length]; [lia|].
  rewrite IH, bump_sum. lia.
Qed.

Lemma group_count_sum (keys : list K) :
  sum_counts (group_count eqb keys) = Z.of_nat (length keys).
Proof. unfold group_count. now rewrite fold_bump_sum. Qed.

Lemma bump_positive (k : K) (acc : list (K * Z)) :
  Forall (fun p => 1 <= snd p) acc -> Forall (fun p => 1 <= snd p) (bump eqb k acc).
Proof.
  induction 1 as [|[k' n] acc Hn Hacc IH]; cbn [bump].
  - repeat constructor. cbn [snd]. lia.
  - cbn [snd] in Hn. destruct (eqb k' k); constructor; cbn [snd]; auto; lia.
Qed.

Lemma bump_keys (k k0 : K) (acc : list (K * Z)) :
  In k (map fst (bump eqb k0 acc)) <-> In k (map fst acc) \/ k = k0.
Proof.
  induction acc as [|[k' n] acc IH]; cbn [bump map fst In].
  - split; [intros [<-|[]]; now right | intros [[]| ->]; now left].
  - destruct (eqb k' k0) eqn:E; cbn [map fst In].
    + apply eqb_eq in E. subst. intuition congruence.
    + rewrite IH. tauto.
Qed.

Lemma bump_nodup (k : K) (acc : list (K * Z)) :
  NoDup (map fst acc) -> NoDup (map fst (bump eqb k acc)).
Proof.
  induction acc as [|[k' n] acc IH]; cbn [bump map fst]; intros N.
  - repeat constructor. intros [].
  - inversion N as [|? ? Hn N']; subst.
    destruct (eqb k' k) eqn:E; cbn [map fst]; [exact N|].
    constructor; [|now apply IH].
    rewrite bump_keys. intros [H| ->]; [tauto|].
    assert (eqb k k = true) by now apply eqb_eq. congruence.
Qed.

Lemma lookup_bump (k k0 : K) (acc : list (K * Z)) :
  lookup_count eqb k (bump eqb k0 acc)
  = lookup_count eqb k acc + (if eqb k0 k then 1 else 0).
Proof.
  unfold lookup_count.
  induction acc as [|[k' n] acc IH]; cbn [bump find fst snd].
  - destruct (eqb k0 k); reflexivity.
  - destruct (eqb k' k0) eqn:E0; cbn [find fst snd].
    + apply eqb_eq in E0. subst k'. destruct (eqb k0 k); cbn [snd]; lia.
    + destruct (eqb k' k) eqn:E1; [|exact IH].
      cbn [snd]. destruct (eqb k0 k) eqn:E2; [|lia].
      apply eqb_eq in E1, E2. subst.
      assert (eqb k k = true) by now apply eqb_eq. congruence.
Qed.

Lemma lookup_group_count (k : K) (keys : list K) :
  lookup_count eqb k (group_count eqb keys) = occurrences eqb k keys.
Proof.
  unfold group_count, occurrences.
  induction keys as [|k0 keys IH] using rev_ind; [reflexivity|].
  rewrite fold_left_app. cbn [fold_left].
  rewrite lookup_bump, IH, filter_app, length_app. cbn [filter].
  destruct (eqb k0 k); cbn [length]; lia.
Qed.

Lemma group_count_positive (keys : list K) :
  Forall (fun p => 1 <= snd p) (group_count eqb keys).
Proof.
  unfold group_count.
  induction keys as [|k0 keys IH] using rev_ind; [constructor|].
  rewrite fold_left_app. now apply bump_positive.
Qed.

Lemma group_count_nodup (keys : list K) :
  NoDup (map fst (group_count eqb keys)).
Proof.
  unfold group_count.
  induction keys as [|k0 keys IH] using rev_ind; [constructor|].
  rewrite fold_left_app. now apply bump_nodup.
Qed.

Lemma lookup_in (k : K) (n : Z) (rows : list (K * Z)) :
  NoDup (map fst rows) -> In (k, n) rows -> lookup_count eqb k rows = n.
Proof.
  unfold lookup_count.
  induction rows as [|[k' n'] rows IH]; cbn [map fst In find]; intros N Hin; [tauto|].
  inversion N as [|? ? Hn N']; subst.
  destruct Hin as [[= -> ->]|Hin].
  - assert (eqb k k = true) as -> by now apply eqb_eq. reflexivity.
  - destruct (eqb k' k) eqn:E; [|now apply IH].
    apply eqb_eq in E. subst k'. exfalso. apply Hn.
    change k with (fst (k, n)). now apply in_map.
Qed.

Lemma in_lookup (k : K) (rows : list (K * Z)) :
  lookup_count eqb k rows <> 0 -> In (k, lookup_count eqb k rows) rows.
Proof.
  unfold lookup_count. intros H.
  destruct (find _ rows) as [[k' n]|] eqn:F; [|tauto].
  apply find_some in F as [Hin E]. cbn [fst] in E. apply eqb_eq in E. now subst.
Qed.

(** The rows of a grouped count: a key is listed with [n] exactly when it
    occurs [n] times and [n] is at least 1. *)
Lemma group_count_rows (k : K) (n : Z) (keys : list K) :
  In (k, n) (group_count eqb keys) <-> n = occurrences eqb k keys /\ 1 <= n.
Proof.
  split.
  - intros Hin. split.
    + rewrite <- lookup_group_count. symmetry.
      apply lookup_in; [apply group_count_nodup | exact Hin].
    + pose proof (group_count_positive keys) as P.
      rewrite Forall_forall in P. exact (P _ Hin).
  - intros [-> H]. rewrite <- lookup_group_count in *.
    apply in_lookup. lia.
Qed.

End GroupCount.

(** ** The three queries *)

Lemma status_eqb_eq (a b : option str) : status_eqb a b = true <-> a = b.
Proof.
  destruct a as [s|], b as [t|]; cbn [status_eqb];
    try (split; [discriminate | discriminate]).
  - rewrite str_eqb_eq. split; [now intros -> | now intros [= ->]].
  - tauto.
Qed.

Lemma course_key_eqb_eq (a b : Z * str * str) :
  course_key_eqb a b = true <-> a = b.
Proof.
  destruct a as [[i c] n], b as [[j d] m]. cbn [course_key_eqb].
  rewrite !andb_true_iff, Z.eqb_eq, !str_eqb_eq.
  split; [intros [[-> ->] ->]; reflexivity | intros [= -> -> ->]; tauto].
Qed.

Lemma sum_counts_snd {K : Type} (rows : list (K * Z)) :
  fold_right Z.add 0 (map snd rows) = sum_counts rows.
Proof. induction rows as [|p rows IH]; cbn; [reflexivity | now rewrite IH]. Qed.

Lemma by_status_counts (current_year : Z) (db : Store) (year : option Z) :
  map StatusStat.count
      (Stats.by_status (get_certificate_stats_by_year current_year db year))
  = map snd (group_count_by_status db (stats_year current_year year)).
Proof.
  unfold get_certificate_stats_by_year. cbn [Stats.by_status].
  rewrite map_map. reflexivity.
Qed.

Lemma by_course_counts (current_year : Z) (db : Store) (year : option Z) :
  map CourseStat.count
      (Stats.by_course (get_certificate_stats_by_year current_year db year))
  = map snd (group_count course_key_eqb
               (map (fun p => course_key (fst p))
                    (join_courses db (stats_year current_year year)))).
Proof.
  unfold get_certificate_stats_by_year, group_count_by_course.
  cbn [Stats.by_course]. rewrite !map_map. apply map_ext.
  intros [[[i c] n] k]. reflexivity.
Qed.

(** X12. The counts of the rows by status add up to the total number of
    certificates of the year. *)
Theorem status_counts_sum_to_total (current_year : Z) (db : Store)
  (year : option Z) :
  let stats := get_certificate_stats_by_year current_year db year in
  fold_right Z.add 0 (map StatusStat.count (Stats.by_status stats))
  = Stats.total_certificates stats.
Proof.
  cbv zeta. rewrite by_status_counts, sum_counts_snd.
  unfold group_count_by_status. rewrite group_count_sum, length_map.
  reflexivity.
Qed.

Lemma filter_or_length {A : Type} (p q : A -> bool) (l : list A) :
  (forall x, In x l -> p x = true -> q x = false) ->
  length (filter (fun x => p x || q x) l)
  = (length (filter p l) + length (filter q l))%nat.
Proof.
  induction l as [|a l IH]; intros D; [reflexivity|].
  cbn [filter]. pose proof (D a (or_introl eq_refl)) as Da.
  assert (IH' := IH (fun x Hx => D x (or_intror Hx))).
  destruct (p a) eqn:P, (q a) eqn:Q; cbn [orb length];
    try (specialize (Da eq_refl); discriminate); lia.
Qed.

Lemma filter_length_le {A : Type} (p : A -> bool) (l : list A) :
  (length (filter p l) <= length l)%nat.
Proof.
  induction l as [|a l IH]; [reflexivity|].
  cbn [filter]. destruct (p a); cbn [length]; lia.
Qed.

(** The pairs of the join, counted: with course ids that are all
    different, they are as many as the certificates of the year whose
    course is among the courses. *)
Lemma join_length (certs : list Certificate.t) (year : Z) (cs : list Course.t) :
  NoDup (map Course.id cs) ->
  length (flat_map
            (fun co =>
               map (fun ce => (co, ce))
                   (filter (fun ce => (Course.id co =? Certificate.course_id ce)
                                      && issued_in year ce) certs)) cs)
  = length (filter (fun ce => existsb (fun co => Course.id co =? Certificate.course_id ce) cs)
                   (filter (issued_in year) certs)).
Proof.
  induction cs as [|co cs IH]; cbn [map flat_map existsb]; intros N.
  - induction (filter (issued_in year) certs) as [|a l IHl]; [reflexivity | exact IHl].
  - inversion N as [|? ? Hn N']; subst.
    rewrite length_app, length_map, IH by exact N'.
    rewrite filter_or_length.
    + f_equal. clear. induction certs as [|ce certs IHc]; [reflexivity|].
      cbn [filter]. destruct (issued_in year ce); cbn [filter];
        destruct (Course.id co =? Certificate.course_id ce); cbn [andb length];
        now rewrite ?IHc.
    + intros ce _ E. apply Z.eqb_eq in E.
      destruct (existsb _ cs) eqn:X; [|reflexivity]. exfalso.
      apply existsb_exists in X as (co' & Hin & E'). apply Z.eqb_eq in E'.
      apply Hn. rewrite E, <- E'. now apply in_map.
Qed.

(** X13. When the ids of the stored courses are all different, the counts
    of the rows by course add up to the number of certificates of the year
    whose course is stored: a certificate that refers to no stored course
    is in the total and in no row by course. *)
Theorem course_counts_sum (current_year : Z) (db : Store) (year : option Z) :
  NoDup (map Course.id (courses db)) ->
  let stats := get_certificate_stats_by_year current_year db year in
  fold_right Z.add 0 (map CourseStat.count (Stats.by_course stats))
  = Z.of_nat (length (filter (has_course db)
                             (certificates_of db (stats_year current_year year))))
  /\ fold_right Z.add 0 (map CourseStat.count (Stats.by_course stats))
     <= Stats.total_certificates stats.
Proof.
  intros N. cbv zeta.
  rewrite by_course_counts, sum_counts_snd, group_count_sum, length_map.
  unfold join_courses. rewrite join_length by exact N.
  split; [reflexivity|].
  unfold get_certificate_stats_by_year. cbn [Stats.total_certificates].
  unfold count_certificates. apply inj_le.
  fold (stats_year current_year year). apply filter_length_le.
Qed.

Lemma course_counts_sum_witness :
  let stats := get_certificate_stats_by_year 2024 stats_store None in
  fold_right Z.add 0 (map CourseStat.count (Stats.by_course stats))
  = Z.of_nat (length (filter (has_course stats_store)
                             (certificates_of stats_store (stats_year 2024 None))))
  /\ fold_right Z.add 0 (map CourseStat.count (Stats.by_course stats))
     <= Stats.total_certificates stats.
Proof.
  apply (course_counts_sum 2024 stats_store None).
  repeat constructor; cbn; intuition discriminate.
Defined.

Lemma occurrences_map {A K : Type} (eqb : K -> K -> bool) (f : A -> K) (k : K)
  (l : list A) :
  occurrences eqb k (map f l)
  = Z.of_nat (length (filter (fun a => eqb (f a) k) l)).
Proof.
  unfold occurrences. f_equal.
  induction l as [|a l IH]; [reflexivity|].
  cbn [map filter]. destruct (eqb (f a) k); cbn [length]; now rewrite IH.
Qed.

Lemma filter_nonempty_in {A : Type} (p : A -> bool) (l : list A) :
  1 <= Z.of_nat (length (filter p l)) -> exists a, In a l /\ p a = true.
Proof.
  destruct (filter p l) as [|a r] eqn:E; cbn [length]; [lia|]. intros _.
  exists a. apply filter_In. rewrite E. now left.
Qed.

Lemma in_by_status (current_year : Z) (db : Store) (year : option Z)
  (st : option str) (n : Z) :
  In (StatusStat.mk st n)
     (Stats.by_status (get_certificate_stats_by_year current_year db year))
  <-> In (st, n) (group_count_by_status db (stats_year current_year year)).
Proof.
  unfold get_certificate_stats_by_year. cbn [Stats.by_status].
  fold (stats_year current_year year). rewrite in_map_iff. split.
  - intros ([st' n'] & [= -> ->] & Hin). exact Hin.
  - intros Hin. now exists (st, n).
Qed.

(** X14. A status is listed with count [n] exactly when [n] certificates
    of the year have that status and [n] is at least 1: every count by
    status is the number of certificates with it, and a status that no
    certificate of the year has is not listed. *)
Theorem status_row_counts (current_year : Z) (db : Store) (year : option Z)
  (st : option str) (n : Z) :
  In (StatusStat.mk st n)
     (Stats.by_status (get_certificate_stats_by_year current_year db year))
  <-> n = Z.of_nat (length (filter (fun ce => status_eqb (Certificate.status ce) st)
                                   (certificates_of db (stats_year current_year year))))
      /\ 1 <= n.
Proof.
  rewrite in_by_status. unfold group_count_by_status.
  rewrite (group_count_rows _ status_eqb status_eqb_eq), occurrences_map.
  reflexivity.
Qed.

(** X15. No status is listed twice. *)
Theorem statuses_listed_once (current_year : Z) (db : Store) (year : option Z) :
  NoDup (map StatusStat.status
             (Stats.by_status (get_certificate_stats_by_year current_year db year))).
Proof.
  unfold get_certificate_stats_by_year. cbn [Stats.by_status].
  rewrite map_map. cbn [StatusStat.status].
  apply (group_count_nodup _ status_eqb status_eqb_eq).
Qed.

(** X16. A year of which the store has no certificate gives a total of 0
    and no row, by course or by status. *)
Theorem stats_of_empty_year (current_year : Z) (db : Store) (year : option Z) :
  (forall ce, In ce (certificates db) ->
              Certificate.issue_year ce <> stats_year current_year year) ->
  get_certificate_stats_by_year current_year db year
  = {| Stats.year := stats_year current_year year;
       Stats.total_certificates := 0;
       Stats.by_course := [];
       Stats.by_status := [] |}.
Proof.
  intros H. set (y := stats_year current_year year) in *.
  assert (E : filter (issued_in y) (certificates db) = []).
  { induction (certificates db) as [|ce l IH]; [reflexivity|].
    cbn [filter]. unfold issued_in at 1.
    destruct (Z.eqb_spec (Certificate.issue_year ce) y) as [Q|_].
    - exfalso. apply (H ce); [now left | exact Q].
    - apply IH. intros c Hc. apply H. now right. }
  assert (J : join_courses db y = []).
  { unfold join_courses.
    induction (courses db) as [|co cs IH]; [reflexivity|].
    cbn [flat_map]. rewrite IH, app_nil_r.
    replace (filter _ (certificates db)) with (@nil Certificate.t); [reflexivity|].
    symmetry. clear IH.
    induction (certificates db) as [|ce l IHl]; [reflexivity|].
    cbn [filter] in *.
    destruct (issued_in y ce); [discriminate E|].
    rewrite andb_false_r. apply IHl.
    + intros c Hc. apply H. now right.
    + exact E. }
  unfold get_certificate_stats_by_year. cbv zeta.
  fold (stats_year current_year year). fold y.
  unfold count_certificates, group_count_by_course, group_count_by_status.
  rewrite J, E. reflexivity.
Qed.

Lemma stats_of_empty_year_witness :
  get_certificate_stats_by_year 2024 stats_store (Some 2025)
  = {| Stats.year := 2025;
       Stats.total_certificates := 0;
       Stats.by_course := [];
       Stats.by_status := [] |}.
Proof.
  apply (stats_of_empty_year 2024 stats_store (Some 2025)).
  intros ce [<-|[<-|[<-|[<-|[]]]]]; cbn; discriminate.
Defined.

(** ** The rows by course *)

Lemma filter_filter_length {A : Type} (p q : A -> bool) (l : list A) :
  length (filter p (filter q l)) = length (filter (fun a => p a && q a) l).
Proof.
  induction l as [|a l IH]; [reflexivity|].
  cbn [filter]. destruct (q a); cbn [filter];
    destruct (p a); cbn [andb length]; now rewrite ?IH.
Qed.

Lemma group_of_own_pairs (co : Course.t) (l : list Certificate.t) :
  length (filter (fun p => course_key_eqb (course_key (fst p)) (course_key co))
                 (map (fun ce => (co, ce)) l))
  = length l.
Proof.
  assert (K : course_key_eqb (course_key co) (course_key co) = true)
    by now apply course_key_eqb_eq.
  induction l as [|ce l IHl]; [reflexivity|].
  cbn [map filter fst]. rewrite K. cbn [length]. now rewrite IHl.
Qed.

Lemma group_of_other_pairs (c co : Course.t) (l : list Certificate.t) :
  Course.id c <> Course.id co ->
  filter (fun p => course_key_eqb (course_key (fst p)) (course_key co))
         (map (fun ce => (c, ce)) l)
  = [].
Proof.
  intros D. apply Z.eqb_neq in D.
  induction l as [|ce l IHl]; [reflexivity|].
  cbn [map filter fst]. unfold course_key_eqb at 1, course_key at 1 2.
  rewrite D. cbn [andb]. exact IHl.
Qed.

Lemma join_other_courses (certs : list Certificate.t) (year : Z)
  (cs : list Course.t) (co : Course.t) :
  (forall c, In c cs -> Course.id c <> Course.id co) ->
  filter (fun p => course_key_eqb (course_key (fst p)) (course_key co))
         (flat_map
            (fun c =>
               map (fun ce => (c, ce))
                   (filter (fun ce => (Course.id c =? Certificate.course_id ce)
                                      && issued_in year ce) certs)) cs)
  = [].
Proof.
  induction cs as [|c cs IH]; intros H; [reflexivity|].
  cbn [flat_map]. rewrite filter_app, IH by (intros c' Hc'; apply H; now right).
  rewrite app_nil_r. apply group_of_other_pairs. apply H. now left.
Qed.

(** With course ids all different, the pairs of the join that fall into
    the group of a stored course are those of its certificates of the
    year. *)
Lemma join_group_of_course (certs : list Certificate.t) (year : Z)
  (cs : list Course.t) (co : Course.t) :
  NoDup (map Course.id cs) -> In co cs ->
  length (filter (fun p => course_key_eqb (course_key (fst p)) (course_key co))
                 (flat_map
                    (fun c =>
                       map (fun ce => (c, ce))
                           (filter (fun ce => (Course.id c =? Certificate.course_id ce)
                                              && issued_in year ce) certs)) cs))
  = length (filter (fun ce => (Course.id co =? Certificate.course_id ce)
                              && issued_in year ce) certs).
Proof.
  induction cs as [|c cs IH]; intros N Hin; [destruct Hin|].
  cbn [map] in N. inversion N as [|? ? Hn N']; subst.
  cbn [flat_map]. rewrite filter_app, length_app.
  destruct Hin as [->|Hin].
  - rewrite join_other_courses.
    2:{ intros c' Hc' E. apply Hn. rewrite <- E. now apply in_map. }
    cbn [length]. rewrite Nat.add_0_r. apply group_of_own_pairs.
  - rewrite IH by assumption.
    rewrite group_of_other_pairs; [reflexivity|].
    intros E. apply Hn. rewrite E. now apply in_map.
Qed.

Lemma in_by_course (current_year : Z) (db : Store) (year : option Z)
  (code name : str) (n : Z) :
  In (CourseStat.mk code name n)
     (Stats.by_course (get_certificate_stats_by_year current_year db year))
  <-> exists i,
        In ((i, code, name), n)
           (group_count course_key_eqb
              (map (fun p => course_key (fst p))
                   (join_courses db (stats_year current_year year)))).
Proof.
  unfold get_certificate_stats_by_year, group_count_by_course.
  cbn [Stats.by_course]. fold (stats_year current_year year).
  rewrite map_map, in_map_iff. split.
  - intros ([[[i c] m] k] & [= -> -> ->] & Hin). now exists i.
  - intros (i & Hin). now exists ((i, code, name), n).
Qed.

(** X17. When the ids of the stored courses are all different, the rows by
    course are exactly these: for each stored course that has at least one
    certificate of the year, its code and its name with the number of its
    certificates of the year.  A course with no certificate of the year
    has no row. *)
Theorem course_row_counts (current_year : Z) (db : Store) (year : option Z)
  (code name : str) (n : Z) :
  NoDup (map Course.id (courses db)) ->
  In (CourseStat.mk code name n)
     (Stats.by_course (get_certificate_stats_by_year current_year db year))
  <-> exists co,
        In co (courses db)
        /\ code = Course.course_code co /\ name = Course.course_name co
        /\ n = Z.of_nat
                 (length (filter (fun ce => Course.id co =? Certificate.course_id ce)
                                 (certificates_of db (stats_year current_year year))))
        /\ 1 <= n.
Proof.
  intros N. set (y := stats_year current_year year).
  assert (C : forall co, In co (courses db) ->
              occurrences course_key_eqb (course_key co)
                (map (fun p => course_key (fst p)) (join_courses db y))
              = Z.of_nat
                  (length (filter (fun ce => Course.id co =? Certificate.course_id ce)
                                  (certificates_of db y)))).
  { intros co Hin. rewrite occurrences_map. f_equal.
    unfold join_courses. rewrite (join_group_of_course _ _ _ co N Hin).
    unfold certificates_of. now rewrite filter_filter_length. }
  rewrite in_by_course. fold y. split.
  - intros (i & Hin).
    apply (group_count_rows _ course_key_eqb course_key_eqb_eq) in Hin as [E P].
    assert (Q : exists co, In co (courses db) /\ course_key co = (i, code, name)).
    { rewrite occurrences_map in E. rewrite E in P.
      apply filter_nonempty_in in P as ([co ce] & Hp & K).
      cbn [fst] in K. apply course_key_eqb_eq in K.
      unfold join_courses in Hp. apply in_flat_map in Hp as (co' & Hco & Hp).
      apply in_map_iff in Hp as (ce' & [= -> ->] & _). now exists co. }
    destruct Q as (co & Hco & K). exists co.
    rewrite <- K, (C co Hco) in E. injection K as _ <- <-. auto.
  - intros (co & Hco & -> & -> & E & P). exists (Course.id co).
    apply (group_count_rows _ course_key_eqb course_key_eqb_eq).
    fold (course_key co). rewrite (C co Hco). auto.
Qed.

Lemma course_row_counts_witness :
  In (CourseStat.mk (lit "WD") (lit "Web Development") 2)
     (Stats.by_course (get_certificate_stats_by_year 2024 stats_store None))
  <-> exists co,
        In co (courses stats_store)
        /\ lit "WD" = Course.course_code co
        /\ lit "Web Development" = Course.course_name co
        /\ 2 = Z.of_nat
                 (length (filter (fun ce => Course.id co =? Certificate.course_id ce)
                                 (certificates_of stats_store (stats_year 2024 None))))
        /\ 1 <= 2.
Proof.
  apply (course_row_counts 2024 stats_store None).
  repeat constructor; cbn; intuition discriminate.
Defined.
